(** * QiTlalli GCP deployment manager: a shallow embedding of [deploy.py]

    The script sequences calls to Google Cloud client libraries.  The
    embedding keeps the control flow of every method of
    [GCPDeploymentManager] and of [main] (the [try]/[except] blocks, the
    early [sys.exit], the loop over the secrets) and abstracts the client
    libraries behind the interface [Cloud]: each call may return a value or
    raise, as the environment decides.  A computation returns its outcome,
    the environment after it and the list of events (collaborator calls and
    log records) it produced, in program order.

    Conventions.
    - Python [str] values are [string]s of bytes (the UTF-8 encoding of the
      source literal), so [str.encode()] is the identity; the generated
      passwords are ASCII, where bytes and characters coincide.
    - Python [int] is [Z].
    - Exceptions raised by the client libraries are instances of
      [Exception]; [SystemExit], raised by [sys.exit], is not, and is the
      separate outcome [Exit].
    - The [import] statements inside method bodies resolve: the model
      starts from an interpreter that has loaded the script's modules. *)

From Stdlib Require Import List String Ascii ZArith Lia Bool Arith.
From Stdlib Require Import DecimalString.
Import ListNotations.
Open Scope string_scope.
Open Scope list_scope.

(** String concatenation, for the f-strings of the script; [++] is kept
    for lists. *)
Infix "+++" := String.append (right associativity, at level 60).

(** ** Exceptions, events, outcomes *)

(** The exception classes the script tells apart: [check_authentication]
    has a handler of its own for [DefaultCredentialsError]; every other
    class is handled as [Exception]. *)
Inductive exn_class := DefaultCredentialsError | OtherException.

(** An exception instance; [exn_msg] is what [str(e)] returns. *)
Record exn := mkExn { exn_cls : exn_class; exn_msg : string }.

(** What a call into a client library gives back. *)
Inductive reply (A : Type) :=
| Returned (a : A)
| Raised (e : exn).
Arguments Returned {A} a.
Arguments Raised {A} e.

Inductive level := INFO | WARNING | ERROR.

(** The clients the constructor creates, in the order of [__init__]. *)
Inductive client_kind :=
| SecretManagerServiceClient | StorageClient | SqlInstancesServiceClient
| RunServicesClient | CloudBuildClient.

(** One step of [build_config]. *)
Record BuildStep := mkStep { step_name : string; step_args : list string }.

(** The dictionary submitted to Cloud Build. *)
Record BuildSpec := mkBuild { steps : list BuildStep; images : list string }.

(** The observable actions of a run, each with the arguments of the call. *)
Inductive event :=
| EAuthDefault
| ENewClient (k : client_kind)
| EListProjects
| EGetSecret (name : string)
| ECreateSecret (parent secret_id : string)
| EAddSecretVersion (parent payload : string)
| ECreateBuild (parent : string) (build : BuildSpec)
| ESleep (seconds : Z)
| EHttpGet (url : string) (timeout : Z)
| ELog (l : level) (msg : string).

Definition trace := list event.

(** How a computation ends: with a value, with an [Exception] in flight, or
    with [SystemExit(code)] in flight. *)
Inductive outcome (A : Type) :=
| Ret (a : A)
| Raise (e : exn)
| Exit (code : Z).
Arguments Ret {A} a.
Arguments Raise {A} e.
Arguments Exit {A} code.

(** ** The collaborators *)

(** The client libraries, as functions of the environment [W].  Nothing is
    assumed about when a call raises.  [randbelow n] is the draw behind
    [secrets.choice] on a sequence of length [n]; the library returns an
    index of the sequence. *)
Class Cloud (W : Type) := {
  auth_default : W -> reply unit * W;
  new_client : client_kind -> W -> reply unit * W;
  list_projects : W -> reply unit * W;
  get_secret : string -> W -> reply unit * W;
  create_secret : string -> string -> W -> reply string * W;
  add_secret_version : string -> string -> W -> reply unit * W;
  create_build : string -> BuildSpec -> W -> reply unit * W;
  sleep : Z -> W -> W;
  http_get : string -> Z -> W -> reply Z * W;
  randbelow : nat -> W -> nat * W;
  randbelow_lt : forall n w, (0 < n)%nat -> (fst (randbelow n w) < n)%nat
}.

(** ** The monad of the script *)

Section Monad.

Context {W : Type}.

Definition M (A : Type) := W -> outcome A * W * trace.

Definition ret {A} (a : A) : M A := fun w => (Ret a, w, []).

Definition bind {A B} (m : M A) (f : A -> M B) : M B :=
  fun w =>
    match m w with
    | (Ret a, w1, t1) =>
        let '(o, w2, t2) := f a w1 in (o, w2, t1 ++ t2)
    | (Raise e, w1, t1) => (Raise e, w1, t1)
    | (Exit n, w1, t1) => (Exit n, w1, t1)
    end.

Local Notation "x <- m ;; k" := (bind m (fun x => k))
  (at level 61, m at next level, right associativity).

(** [raise Exception(msg)] and [sys.exit(code)]. *)
Definition raise {A} (e : exn) : M A := fun w => (Raise e, w, []).
Definition sys_exit {A} (code : Z) : M A := fun w => (Exit code, w, []).

(** [try: m  except Exception as e: h e].  [SystemExit] passes through. *)
Definition try_except {A} (m : M A) (h : exn -> M A) : M A :=
  fun w =>
    match m w with
    | (Raise e, w1, t1) =>
        let '(o, w2, t2) := h e w1 in (o, w2, t1 ++ t2)
    | r => r
    end.

(** [try: m  except: h], the bare handler, which also stops [SystemExit]. *)
Definition try_bare {A} (m : M A) (h : M A) : M A :=
  fun w =>
    match m w with
    | (Ret a, w1, t1) => (Ret a, w1, t1)
    | (_, w1, t1) =>
        let '(o, w2, t2) := h w1 in (o, w2, t1 ++ t2)
    end.

(** A call into a client library, recorded as [ev]. *)
Definition call {A} (ev : event) (f : W -> reply A * W) : M A :=
  fun w =>
    match f w with
    | (Returned a, w1) => (Ret a, w1, [ev])
    | (Raised e, w1) => (Raise e, w1, [ev])
    end.

Definition log (l : level) (msg : string) : M unit :=
  fun w => (Ret tt, w, [ELog l msg]).

(** [time.sleep(seconds)]. *)
Definition do_sleep (seconds : Z) (sl : Z -> W -> W) : M unit :=
  fun w => (Ret tt, sl seconds w, [ESleep seconds]).

(** A [for] loop whose body updates the accumulator [acc]. *)
Fixpoint for_each {A S} (items : list A) (body : S -> A -> M S) (acc : S)
  : M S :=
  match items with
  | [] => ret acc
  | x :: rest => acc1 <- body acc x ;; for_each rest body acc1
  end.

End Monad.

Arguments M : clear implicits.

Notation "x <- m ;; k" := (bind m (fun x => k))
  (at level 61, m at next level, right associativity).
Notation "m ;;; k" := (bind m (fun _ => k))
  (at level 61, right associativity).

(** ** Values of the script *)

(** [str(n)] for a length and for an [int]. *)
Definition str_nat (n : nat) : string := NilEmpty.string_of_uint (Nat.to_uint n).
Definition str_int (z : Z) : string := NilZero.string_of_int (Z.to_int z).

(** The dataclass [GCPConfig]. *)
Record GCPConfig := mkConfig {
  project_id : string;
  region : string;
  service_name : string;
  db_instance_name : string;
  service_account : string
}.

(** [GCPConfig(project_id=p, region=r)]: the other fields take their
    defaults. *)
Definition new_config (p r : string) : GCPConfig :=
  {| project_id := p;
     region := r;
     service_name := "qitlalli-odoo";
     db_instance_name := "qitlalli-db";
     service_account := "qitlalli-service-account" |}.

(** A [Dict[str, str]] in insertion order. *)
Definition dict := list (string * string).

(** [d[k] = v]: an existing key keeps its place and takes the new value, a
    new key goes last. *)
Fixpoint dict_set (d : dict) (k v : string) : dict :=
  match d with
  | [] => [(k, v)]
  | (k1, v1) :: rest =>
      if String.eqb k1 k then (k1, v) :: rest
      else (k1, v1) :: dict_set rest k v
  end.

(** [string.ascii_letters], [string.digits] and the alphabet of
    [_generate_password]. *)
Definition ascii_lowercase := "abcdefghijklmnopqrstuvwxyz".
Definition ascii_uppercase := "ABCDEFGHIJKLMNOPQRSTUVWXYZ".
Definition ascii_letters := ascii_lowercase +++ ascii_uppercase.
Definition digits := "0123456789".
Definition punctuation := "!@#$%^&*".
Definition alphabet := ascii_letters +++ digits +++ punctuation.

(** [SecretManagerServiceClient.secret_path(project, secret)], a string
    template of the client library. *)
Definition secret_path (project secret : string) : string :=
  "projects/" +++ project +++ "/secrets/" +++ secret.

(** The names of [secrets_config], in the order of the literal. *)
Definition required_secrets : list string :=
  [ "qitlalli-db-password"; "qitlalli-admin-password"; "qitlalli-jwt-secret";
    "qitlalli-email-password"; "qitlalli-whatsapp-token" ].

Definition placeholder := "PLACEHOLDER-UPDATE-MANUALLY".

Definition required_roles : list string :=
  [ "roles/secretmanager.secretAccessor"; "roles/cloudsql.client";
    "roles/logging.logWriter"; "roles/monitoring.metricWriter";
    "roles/run.invoker" ].

(** The f-string that tags the image, used three times in [build_config]. *)
Definition image_tag (c : GCPConfig) : string :=
  "gcr.io/" +++ project_id c +++ "/" +++ service_name c +++ ":latest".

Definition build_config (c : GCPConfig) : BuildSpec :=
  {| steps :=
       [ {| step_name := "gcr.io/cloud-builders/docker";
            step_args := ["build"; "-f"; "gcp/Dockerfile"; "-t"; image_tag c; "."] |};
         {| step_name := "gcr.io/cloud-builders/docker";
            step_args := ["push"; image_tag c] |} ];
     images := [image_tag c] |}.

Definition service_url_of (c : GCPConfig) : string :=
  "https://" +++ service_name c +++ "-" +++ project_id c +++ ".run.app".

Definition health_url_of (service_url : string) : string :=
  service_url +++ "/web/health".

(** Truth value of an [Optional[str]]: [None] and the empty string are
    false. *)
Definition truthy (o : option string) : bool :=
  match o with
  | Some (String _ _) => true
  | _ => false
  end.

Definition IndexError := mkExn OtherException "string index out of range".
Definition Exception (msg : string) := mkExn OtherException msg.

(** ** [GCPDeploymentManager] *)

Section Manager.

Context {W : Type} {cloud : Cloud W}.

(** [__init__]: default credentials, then the five clients. *)
Definition init : M W unit :=
  call EAuthDefault auth_default ;;;
  call (ENewClient SecretManagerServiceClient) (new_client SecretManagerServiceClient) ;;;
  call (ENewClient StorageClient) (new_client StorageClient) ;;;
  call (ENewClient SqlInstancesServiceClient) (new_client SqlInstancesServiceClient) ;;;
  call (ENewClient RunServicesClient) (new_client RunServicesClient) ;;;
  call (ENewClient CloudBuildClient) (new_client CloudBuildClient).

(** [check_authentication]: the probe is the listing of the projects; the
    two handlers differ in the message they log. *)
Definition check_authentication : M W bool :=
  try_except
    (call EListProjects list_projects ;;;
     log INFO "✅ GCP authentication verified" ;;;
     ret true)
    (fun e =>
       match exn_cls e with
       | DefaultCredentialsError =>
           log ERROR "❌ Not authenticated with Google Cloud. Run: gcloud auth login" ;;;
           ret false
       | OtherException =>
           log ERROR ("❌ Authentication check failed: " +++ exn_msg e) ;;;
           ret false
       end).

(** [secrets.choice(seq)]: [seq[randbelow(len(seq))]]; indexing out of
    range raises [IndexError]. *)
Definition secrets_choice (seq : string) : M W ascii :=
  fun w =>
    let (i, w1) := randbelow (String.length seq) w in
    match String.get i seq with
    | Some ch => (Ret ch, w1, [])
    | None => (Raise IndexError, w1, [])
    end.

(** [''.join(secrets.choice(seq) for _ in range(n))]. *)
Fixpoint join_choices (seq : string) (n : nat) : M W string :=
  match n with
  | O => ret ""
  | S k =>
      ch <- secrets_choice seq ;;
      rest <- join_choices seq k ;;
      ret (String ch rest)
  end.

(** [_generate_password(length)]; [range] of a negative number is empty. *)
Definition _generate_password (length : Z) : M W string :=
  join_choices alphabet (Z.to_nat length).

(** The dictionary [secrets_config]: its values are computed, in the order
    of the literal, before the loop starts. *)
Definition secrets_config : M W dict :=
  db <- _generate_password 32 ;;
  admin <- _generate_password 24 ;;
  jwt <- _generate_password 64 ;;
  ret [ ("qitlalli-db-password", db);
        ("qitlalli-admin-password", admin);
        ("qitlalli-jwt-secret", jwt);
        ("qitlalli-email-password", placeholder);
        ("qitlalli-whatsapp-token", placeholder) ].

(** The body of the loop of [create_secrets] for one item of
    [secrets_config]; [created_secrets] is the dictionary built so far. *)
Definition provision_secret (c : GCPConfig) (created_secrets : dict)
    (item : string * string) : M W dict :=
  let (secret_name, secret_value) := item in
  try_except
    (let parent := "projects/" +++ project_id c in
     let secret_id := secret_name in
     try_bare
       (let secret_path := secret_path (project_id c) secret_id in
        call (EGetSecret secret_path) (get_secret secret_path) ;;;
        log INFO ("✅ Secret " +++ secret_name +++ " already exists") ;;;
        ret created_secrets)
       (response <- call (ECreateSecret parent secret_id)
                         (create_secret parent secret_id) ;;
        call (EAddSecretVersion response secret_value)
             (add_secret_version response secret_value) ;;;
        log INFO ("✅ Created secret: " +++ secret_name) ;;;
        ret (dict_set created_secrets secret_name secret_value)))
    (fun e =>
       log ERROR ("❌ Failed to create secret " +++ secret_name +++ ": " +++ exn_msg e) ;;;
       ret created_secrets).

Definition create_secrets (c : GCPConfig) : M W dict :=
  config <- secrets_config ;;
  for_each config (provision_secret c) [].

Definition setup_service_account : M W bool :=
  try_except
    (log INFO ("✅ Service account setup completed with "
               +++ str_nat (List.length required_roles) +++ " roles") ;;;
     ret true)
    (fun e =>
       log ERROR ("❌ Service account setup failed: " +++ exn_msg e) ;;;
       ret false).

Definition build_and_deploy (c : GCPConfig) : M W bool :=
  try_except
    (log INFO "🐳 Starting Docker build..." ;;;
     let parent := "projects/" +++ project_id c in
     call (ECreateBuild parent (build_config c))
          (create_build parent (build_config c)) ;;;
     log INFO "✅ Docker build submitted successfully" ;;;
     ret true)
    (fun e =>
       log ERROR ("❌ Build and deployment failed: " +++ exn_msg e) ;;;
       ret false).

Definition get_service_url (c : GCPConfig) : M W (option string) :=
  try_except
    (ret (Some (service_url_of c)))
    (fun e =>
       log ERROR ("❌ Failed to get service URL: " +++ exn_msg e) ;;;
       ret None).

Definition run_health_check (service_url : string) : M W bool :=
  try_except
    (log INFO "⏳ Waiting for service to be ready..." ;;;
     do_sleep 30 sleep ;;;
     let health_url := health_url_of service_url in
     status_code <- call (EHttpGet health_url 30) (http_get health_url 30) ;;
     if (status_code =? 200)%Z then
       log INFO "✅ Health check passed" ;;;
       ret true
     else
       log ERROR ("❌ Health check failed: HTTP " +++ str_int status_code) ;;;
       ret false)
    (fun e =>
       log ERROR ("❌ Health check failed: " +++ exn_msg e) ;;;
       ret false).

End Manager.

(** ** The command line and [main] *)

(** The command line as [argparse] reads it: the values given to the three
    declared options, in the order they are given.  (The splitting of
    [sys.argv] into options and values is the library's and is not
    modelled; neither are [-h] and tokens the parser does not know, which
    end the process before [main] does anything.) *)
Inductive cli_arg :=
| ArgProjectId (v : string)
| ArgRegion (v : string)
| ArgAction (v : string).

(** [choices=["setup", "deploy", "secrets"]]. *)
Definition action_choices : list string := ["setup"; "deploy"; "secrets"].

(** The namespace under construction; [--project-id] has no default. *)
Record Namespace := mkNamespace {
  ns_project_id : option string;
  ns_region : string;
  ns_action : string
}.

(** [default="us-central1"] and [default="deploy"]. *)
Definition default_namespace : Namespace :=
  {| ns_project_id := None; ns_region := "us-central1"; ns_action := "deploy" |}.

(** The parsed arguments [args]. *)
Record Args := mkArgs {
  args_project_id : string;
  args_region : string;
  args_action : string
}.

(** Options are consumed left to right, a later occurrence replacing an
    earlier one; a value of [--action] outside [choices] is an error as soon
    as it is read.  [parser.error] exits with status 2. *)
Fixpoint consume_args (argv : list cli_arg) (ns : Namespace) : outcome Namespace :=
  match argv with
  | [] => Ret ns
  | ArgProjectId v :: rest =>
      consume_args rest (mkNamespace (Some v) (ns_region ns) (ns_action ns))
  | ArgRegion v :: rest =>
      consume_args rest (mkNamespace (ns_project_id ns) v (ns_action ns))
  | ArgAction v :: rest =>
      if existsb (String.eqb v) action_choices
      then consume_args rest (mkNamespace (ns_project_id ns) (ns_region ns) v)
      else Exit 2
  end.

(** [parser.parse_args()]: after the options are consumed, a missing
    required option is an error. *)
Definition parse_args (argv : list cli_arg) : outcome Args :=
  match consume_args argv default_namespace with
  | Ret ns =>
      match ns_project_id ns with
      | Some p => Ret (mkArgs p (ns_region ns) (ns_action ns))
      | None => Exit 2
      end
  | Raise e => Raise e
  | Exit n => Exit n
  end.

Section Main.

Context {W : Type} {cloud : Cloud W}.

(** The three branches of [main], inside its [try]. *)
Definition dispatch (action : string) (config : GCPConfig) : M W unit :=
  if String.eqb action "setup" then
    log INFO "🔧 Setting up GCP environment..." ;;;
    ok <- setup_service_account ;;
    (if negb ok then raise (Exception "Service account setup failed") else ret tt) ;;;
    secrets <- create_secrets config ;;
    log INFO ("✅ Created " +++ str_nat (List.length secrets) +++ " secrets")
  else if String.eqb action "secrets" then
    secrets <- create_secrets config ;;
    log INFO ("✅ Managed " +++ str_nat (List.length secrets) +++ " secrets")
  else if String.eqb action "deploy" then
    log INFO "🚀 Starting deployment..." ;;;
    ok <- build_and_deploy config ;;
    (if negb ok then raise (Exception "Build and deployment failed") else ret tt) ;;;
    service_url <- get_service_url config ;;
    if truthy service_url then
      match service_url with
      | Some url =>
          log INFO ("🌐 Service URL: " +++ url) ;;;
          healthy <- run_health_check url ;;
          if healthy
          then log INFO "🎉 Deployment completed successfully!"
          else log WARNING "⚠️ Deployment completed but health check failed"
      | None => ret tt
      end
    else ret tt
  else ret tt.

(** [main] from the construction of the manager on, for parsed [args]. *)
Definition orchestrate (args : Args) : M W unit :=
  let config := new_config (args_project_id args) (args_region args) in
  init ;;;
  authenticated <- check_authentication ;;
  (if negb authenticated then sys_exit 1 else ret tt) ;;;
  log INFO ("🚀 Starting QiTlalli " +++ args_action args
            +++ " for project: " +++ project_id config) ;;;
  try_except
    (dispatch (args_action args) config)
    (fun e =>
       log ERROR ("❌ Deployment failed: " +++ exn_msg e) ;;;
       sys_exit 1).

Definition main (argv : list cli_arg) : M W unit :=
  args <- (fun w => (parse_args argv, w, [])) ;;
  orchestrate args.

(** The exit status of the interpreter: 0 when [main] returns, 1 after an
    uncaught exception, the argument of [sys.exit] otherwise. *)
Definition exit_status {A} (o : outcome A) : Z :=
  match o with
  | Ret _ => 0
  | Raise _ => 1
  | Exit code => code
  end.

(** One run of the script: exit status, environment left behind, events. *)
Definition run (argv : list cli_arg) (w : W) : Z * W * trace :=
  let '(o, w1, t) := main argv w in (exit_status o, w1, t).

End Main.

(** ** A simulated project

    A small stand-in for the cloud services, used to run the script on
    concrete inputs: a secret store with versions, permissions that can be
    withheld, a build service and a health endpoint that can be down. *)

Record Project := mkProject {
  credentials : bool;            (* application default credentials are configured *)
  may_list_projects : bool;
  may_create_secrets : bool;
  may_add_versions : bool;
  secret_store : list (string * list string);  (* resource name, versions *)
  build_service_up : bool;
  submitted : list BuildSpec;
  health_endpoint : option Z;    (* status served at /web/health; None: no connection *)
  clock : Z;
  seed : N
}.

Definition stored (name : string) (p : Project) : bool :=
  existsb (fun s => String.eqb (fst s) name) (secret_store p).

Definition with_store (st : list (string * list string)) (p : Project) : Project :=
  mkProject (credentials p) (may_list_projects p) (may_create_secrets p)
    (may_add_versions p) st (build_service_up p) (submitted p)
    (health_endpoint p) (clock p) (seed p).

Fixpoint push_version (name payload : string) (st : list (string * list string)) :=
  match st with
  | [] => []
  | (n, vs) :: rest =>
      if String.eqb n name then (n, vs ++ [payload]) :: rest
      else (n, vs) :: push_version name payload rest
  end.

Definition no_credentials := mkExn DefaultCredentialsError "Your default credentials were not found.".
Definition denied := mkExn OtherException "403 Permission denied".
Definition not_found := mkExn OtherException "404 Secret not found".
Definition conflict := mkExn OtherException "409 Secret already exists".
Definition unavailable := mkExn OtherException "503 Service unavailable".
Definition refused := mkExn OtherException "Connection refused".

Definition sim_auth_default (p : Project) : reply unit * Project :=
  if credentials p then (Returned tt, p) else (Raised no_credentials, p).

Definition sim_new_client (k : client_kind) (p : Project) : reply unit * Project :=
  (Returned tt, p).

Definition sim_list_projects (p : Project) : reply unit * Project :=
  if credentials p then
    if may_list_projects p then (Returned tt, p) else (Raised denied, p)
  else (Raised no_credentials, p).

Definition sim_get_secret (name : string) (p : Project) : reply unit * Project :=
  if stored name p then (Returned tt, p) else (Raised not_found, p).

Definition sim_create_secret (parent secret_id : string) (p : Project)
  : reply string * Project :=
  let name := parent +++ "/secrets/" +++ secret_id in
  if may_create_secrets p then
    if stored name p then (Raised conflict, p)
    else (Returned name, with_store (secret_store p ++ [(name, [])]) p)
  else (Raised denied, p).

Definition sim_add_secret_version (parent payload : string) (p : Project)
  : reply unit * Project :=
  if may_add_versions p then
    if stored parent p
    then (Returned tt, with_store (push_version parent payload (secret_store p)) p)
    else (Raised not_found, p)
  else (Raised denied, p).

Definition sim_create_build (parent : string) (b : BuildSpec) (p : Project)
  : reply unit * Project :=
  if build_service_up p then
    (Returned tt,
     mkProject (credentials p) (may_list_projects p) (may_create_secrets p)
       (may_add_versions p) (secret_store p) (build_service_up p)
       (submitted p ++ [b]) (health_endpoint p) (clock p) (seed p))
  else (Raised unavailable, p).

Definition sim_sleep (seconds : Z) (p : Project) : Project :=
  mkProject (credentials p) (may_list_projects p) (may_create_secrets p)
    (may_add_versions p) (secret_store p) (build_service_up p) (submitted p)
    (health_endpoint p) (clock p + seconds) (seed p).

Definition sim_http_get (url : string) (timeout : Z) (p : Project)
  : reply Z * Project :=
  match health_endpoint p with
  | Some status => (Returned status, p)
  | None => (Raised refused, p)
  end.

(** A linear congruential generator stands in for the system's entropy. *)
Definition sim_randbelow (n : nat) (p : Project) : nat * Project :=
  (N.to_nat (seed p mod N.of_nat n),
   mkProject (credentials p) (may_list_projects p) (may_create_secrets p)
     (may_add_versions p) (secret_store p) (build_service_up p) (submitted p)
     (health_endpoint p) (clock p)
     ((seed p * 1103515245 + 12345) mod 2147483648)%N).

Lemma sim_randbelow_lt (n : nat) (p : Project) :
  (0 < n)%nat -> (fst (sim_randbelow n p) < n)%nat.
Proof.
  intros Hn. simpl.
  assert (H : (seed p mod N.of_nat n < N.of_nat n)%N) by (apply N.mod_lt; lia).
  lia.
Qed.

#[export] Instance sim_cloud : Cloud Project := {|
  auth_default := sim_auth_default;
  new_client := sim_new_client;
  list_projects := sim_list_projects;
  get_secret := sim_get_secret;
  create_secret := sim_create_secret;
  add_secret_version := sim_add_secret_version;
  create_build := sim_create_build;
  sleep := sim_sleep;
  http_get := sim_http_get;
  randbelow := sim_randbelow;
  randbelow_lt := sim_randbelow_lt
|}.

(** A project with nothing in it, every permission granted and a healthy
    service. *)
Definition fresh_project : Project :=
  {| credentials := true; may_list_projects := true;
     may_create_secrets := true; may_add_versions := true;
     secret_store := []; build_service_up := true; submitted := [];
     health_endpoint := Some 200%Z; clock := 0; seed := 2024 |}.

Definition demo_config : GCPConfig := new_config "demo" "us-central1".

(** The project once the five secrets are in its store. *)
Definition provisioned_project : Project :=
  snd (fst (create_secrets demo_config fresh_project)).

Definition europe_config : GCPConfig := new_config "demo" "europe-west1".

(** The same project for a caller who may not list projects; with the build
    service down; with a service that answers 503. *)
Definition unauthorized_project : Project :=
  mkProject true false true true [] true [] (Some 200%Z) 0 2024.

Definition stalled_project : Project :=
  mkProject true true true true [] false [] (Some 200%Z) 0 2024.

Definition unhealthy_project : Project :=
  mkProject true true true true [] true [] (Some 503%Z) 0 2024.

(** The same project for a caller who may not create secrets, and for one
    who may create them but not add versions. *)
Definition locked_project : Project :=
  mkProject true true false true [] true [] (Some 200%Z) 0 2024.

Definition sealed_project : Project :=
  mkProject true true true false [] true [] (Some 200%Z) 0 2024.

(** ** Observations on values and traces *)

(** The character classes named by the password policy. *)
Definition is_upper (ch : ascii) : bool :=
  let n := nat_of_ascii ch in (65 <=? n)%nat && (n <=? 90)%nat.
Definition is_lower (ch : ascii) : bool :=
  let n := nat_of_ascii ch in (97 <=? n)%nat && (n <=? 122)%nat.
Definition is_digit (ch : ascii) : bool :=
  let n := nat_of_ascii ch in (48 <=? n)%nat && (n <=? 57)%nat.
Definition is_punctuation (ch : ascii) : bool :=
  existsb (Ascii.eqb ch) (list_ascii_of_string "!@#$%^&*").

Definition allowed (ch : ascii) : bool :=
  is_upper ch || is_lower ch || is_digit ch || is_punctuation ch.

(** [d.get(k)]. *)
Fixpoint dict_get (d : dict) (k : string) : option string :=
  match d with
  | [] => None
  | (k1, v1) :: rest => if String.eqb k1 k then Some v1 else dict_get rest k
  end.

(** The GET requests of a trace, with their timeouts. *)
Fixpoint http_requests (t : trace) : list (string * Z) :=
  match t with
  | [] => []
  | EHttpGet url timeout :: rest => (url, timeout) :: http_requests rest
  | _ :: rest => http_requests rest
  end.

(** The secrets whose existence a trace checks. *)
Fixpoint existence_checks (t : trace) : list string :=
  match t with
  | [] => []
  | EGetSecret name :: rest => name :: existence_checks rest
  | _ :: rest => existence_checks rest
  end.

(** The messages a trace logs at level [ERROR]. *)
Fixpoint error_logs (t : trace) : list string :=
  match t with
  | [] => []
  | ELog ERROR msg :: rest => msg :: error_logs rest
  | _ :: rest => error_logs rest
  end.

(** How the loop of [create_secrets] can leave one secret. *)
Inductive provisioning :=
| AlreadyExists
| Created (resource : string)
| CreateFailed (e : exn)
| AddVersionFailed (resource : string) (e : exn).

Definition is_created (p : provisioning) : bool :=
  match p with Created _ => true | _ => false end.

(** The events of one iteration, by the way it ends. *)
Definition provision_trace (c : GCPConfig) (item : string * string * provisioning)
  : trace :=
  let '(name, value, p) := item in
  let failed e :=
    ELog ERROR ("❌ Failed to create secret " +++ name +++ ": " +++ exn_msg e) in
  EGetSecret (secret_path (project_id c) name) ::
  match p with
  | AlreadyExists =>
      [ELog INFO ("✅ Secret " +++ name +++ " already exists")]
  | Created r =>
      [ECreateSecret ("projects/" +++ project_id c) name;
       EAddSecretVersion r value;
       ELog INFO ("✅ Created secret: " +++ name)]
  | CreateFailed e =>
      [ECreateSecret ("projects/" +++ project_id c) name; failed e]
  | AddVersionFailed r e =>
      [ECreateSecret ("projects/" +++ project_id c) name;
       EAddSecretVersion r value; failed e]
  end.

(** [created_secrets] after the iterations [rs], from [d]. *)
Definition record_created (d : dict) (rs : list (string * string * provisioning)) : dict :=
  fold_left
    (fun d r => let '(name, value, p) := r in
                if is_created p then dict_set d name value else d)
    rs d.

(** The message logged for an iteration that fails. *)
Definition failure_message (item : string * string * provisioning) : list string :=
  let '(name, _, p) := item in
  match p with
  | CreateFailed e | AddVersionFailed _ e =>
      ["❌ Failed to create secret " +++ name +++ ": " +++ exn_msg e]
  | _ => []
  end.

(** The events of a constructor [__init__] that succeeds. *)
Definition constructor_trace : trace :=
  [ EAuthDefault; ENewClient SecretManagerServiceClient; ENewClient StorageClient;
    ENewClient SqlInstancesServiceClient; ENewClient RunServicesClient;
    ENewClient CloudBuildClient ].

(** The events of the constructor [__init__]. *)
Definition constructor_event (ev : event) : bool :=
  match ev with
  | EAuthDefault | ENewClient _ => true
  | _ => false
  end.

(** The events of [get_service_url]'s caller and of [run_health_check]. *)
Definition url_or_health_event (ev : event) : bool :=
  match ev with
  | ESleep _ | EHttpGet _ _ => true
  | ELog _ msg =>
      String.prefix "🌐 Service URL: " msg
      || String.prefix "⏳" msg
      || String.eqb "✅ Health check passed" msg
      || String.prefix "❌ Health check failed" msg
  | _ => false
  end.

(** The values a command line gives to each option, in order. *)
Fixpoint supplied_project_ids (argv : list cli_arg) : list string :=
  match argv with
  | [] => []
  | ArgProjectId v :: rest => v :: supplied_project_ids rest
  | _ :: rest => supplied_project_ids rest
  end.

Fixpoint supplied_regions (argv : list cli_arg) : list string :=
  match argv with
  | [] => []
  | ArgRegion v :: rest => v :: supplied_regions rest
  | _ :: rest => supplied_regions rest
  end.

Fixpoint supplied_actions (argv : list cli_arg) : list string :=
  match argv with
  | [] => []
  | ArgAction v :: rest => v :: supplied_actions rest
  | _ :: rest => supplied_actions rest
  end.

Definition valid_action (v : string) : bool :=
  existsb (String.eqb v) action_choices.

(** The calls that act on the project: the secret store, the build service,
    the wait and the probe of the deployed service. *)
Definition step_event (ev : event) : bool :=
  match ev with
  | EGetSecret _ | ECreateSecret _ _ | EAddSecretVersion _ _
  | ECreateBuild _ _ | ESleep _ | EHttpGet _ _ => true
  | _ => false
  end.

(** The calls that change the secret store. *)
Definition mutation_event (ev : event) : bool :=
  match ev with
  | ECreateSecret _ _ | EAddSecretVersion _ _ => true
  | _ => false
  end.

(** The secrets a trace asks the store to create: parent and id. *)
Fixpoint creation_calls (t : trace) : list (string * string) :=
  match t with
  | [] => []
  | ECreateSecret parent secret_id :: rest =>
      (parent, secret_id) :: creation_calls rest
  | _ :: rest => creation_calls rest
  end.

(** The payloads a trace asks the store to add as versions. *)
Fixpoint version_payloads (t : trace) : list string :=
  match t with
  | [] => []
  | EAddSecretVersion _ payload :: rest => payload :: version_payloads rest
  | _ :: rest => version_payloads rest
  end.

(** The builds a trace submits. *)
Fixpoint build_calls (t : trace) : list (string * BuildSpec) :=
  match t with
  | [] => []
  | ECreateBuild parent b :: rest => (parent, b) :: build_calls rest
  | _ :: rest => build_calls rest
  end.



(** An iteration that gets as far as asking for the creation. *)
Definition attempts_creation (p : provisioning) : bool :=
  match p with AlreadyExists => false | _ => true end.

(** The events of an iteration that finds its secret. *)
Definition existing_trace (c : GCPConfig) (name : string) : trace :=
  [ EGetSecret (secret_path (project_id c) name);
    ELog INFO ("✅ Secret " +++ name +++ " already exists") ].

(** The replies of the secret store behind each way an iteration can end:
    [iteration c name value w p w1] says that, from the environment [w], the
    store's replies make the iteration for [name] end as [p], in [w1]. *)
Section Iterations.

Context {W : Type} {cloud : Cloud W}.

Inductive iteration (c : GCPConfig) (name value : string)
  : W -> provisioning -> W -> Prop :=
| it_exists w w1 :
    get_secret (secret_path (project_id c) name) w = (Returned tt, w1) ->
    iteration c name value w AlreadyExists w1
| it_created w e w1 r w2 w3 :
    get_secret (secret_path (project_id c) name) w = (Raised e, w1) ->
    create_secret ("projects/" +++ project_id c) name w1 = (Returned r, w2) ->
    add_secret_version r value w2 = (Returned tt, w3) ->
    iteration c name value w (Created r) w3
| it_create_failed w e w1 e1 w2 :
    get_secret (secret_path (project_id c) name) w = (Raised e, w1) ->
    create_secret ("projects/" +++ project_id c) name w1 = (Raised e1, w2) ->
    iteration c name value w (CreateFailed e1) w2
| it_add_failed w e w1 r w2 e2 w3 :
    get_secret (secret_path (project_id c) name) w = (Raised e, w1) ->
    create_secret ("projects/" +++ project_id c) name w1 = (Returned r, w2) ->
    add_secret_version r value w2 = (Raised e2, w3) ->
    iteration c name value w (AddVersionFailed r e2) w3.

(** The iterations over the items of a dictionary, one after the other. *)
Inductive iterations (c : GCPConfig)
  : dict -> W -> list provisioning -> W -> Prop :=
| its_nil w : iterations c [] w [] w
| its_cons name value items w p w1 ps w2 :
    iteration c name value w p w1 ->
    iterations c items w1 ps w2 ->
    iterations c ((name, value) :: items) w (p :: ps) w2.

(** The existence checks for [names], one after the other from [w]: the
    environment they leave when every one of them returns. *)
Fixpoint checks_return (c : GCPConfig) (names : list string) (w : W) : option W :=
  match names with
  | [] => Some w
  | name :: rest =>
      match get_secret (secret_path (project_id c) name) w with
      | (Returned _, w1) => checks_return c rest w1
      | (Raised _, _) => None
      end
  end.

End Iterations.

(** * Properties *)

Section Properties.

Context {W : Type} {cloud : Cloud W}.

(** ** Password generation *)

Lemma allowed_alphabet (ch : ascii) :
  existsb (Ascii.eqb ch) (list_ascii_of_string alphabet) = allowed ch.
Proof.
  destruct ch as [b0 b1 b2 b3 b4 b5 b6 b7].
  destruct b0, b1, b2, b3, b4, b5, b6, b7; reflexivity.
Qed.

Lemma get_in_range (s : string) (i : nat) :
  (i < String.length s)%nat ->
  exists ch, String.get i s = Some ch /\ In ch (list_ascii_of_string s).
Proof.
  revert i. induction s as [|a s IH]; intros i Hi; simpl in *.
  - lia.
  - destruct i as [|i].
    + exists a. auto.
    + destruct (IH i) as [ch [Hg Hin]]; [lia|]. exists ch. auto.
Qed.

Lemma secrets_choice_member (seq : string) (w : W) :
  (0 < String.length seq)%nat ->
  exists ch w1,
    secrets_choice seq w = (Ret ch, w1, []) /\ In ch (list_ascii_of_string seq).
Proof.
  intros Hlen. unfold secrets_choice.
  pose proof (randbelow_lt (String.length seq) w Hlen) as Hlt.
  destruct (randbelow (String.length seq) w) as [i w1]. simpl in Hlt.
  destruct (get_in_range seq i Hlt) as [ch [Hg Hin]].
  rewrite Hg. eauto.
Qed.

Lemma join_choices_member (seq : string) (n : nat) (w : W) :
  (0 < String.length seq)%nat ->
  exists pw w1,
    join_choices seq n w = (Ret pw, w1, []) /\
    String.length pw = n /\
    Forall (fun ch => In ch (list_ascii_of_string seq)) (list_ascii_of_string pw).
Proof.
  intros Hlen. revert w. induction n as [|n IH]; intros w; simpl.
  - exists "", w. repeat split; constructor.
  - destruct (secrets_choice_member seq w Hlen) as [ch [w1 [Hc Hin]]].
    destruct (IH w1) as [pw [w2 [Hj [Hl Hall]]]].
    exists (String ch pw), w2. unfold bind. rewrite Hc, Hj. simpl.
    repeat split; [congruence | constructor; assumption].
Qed.

Lemma generate_password_member (n : Z) (w : W) :
  exists pw w1,
    _generate_password n w = (Ret pw, w1, []) /\
    String.length pw = Z.to_nat n /\
    Forall (fun ch => allowed ch = true) (list_ascii_of_string pw).
Proof.
  destruct (join_choices_member alphabet (Z.to_nat n) w) as [pw [w1 [Hj [Hl Hall]]]].
  - vm_compute. lia.
  - exists pw, w1. repeat split; try assumption.
    eapply Forall_impl; [|exact Hall]. intros ch Hin. simpl in Hin.
    rewrite <- allowed_alphabet. apply existsb_exists.
    exists ch. split; [exact Hin | apply Ascii.eqb_refl].
Qed.

Lemma secrets_config_values (w : W) :
  exists db admin jwt w1,
    secrets_config w =
      (Ret [ ("qitlalli-db-password", db); ("qitlalli-admin-password", admin);
             ("qitlalli-jwt-secret", jwt); ("qitlalli-email-password", placeholder);
             ("qitlalli-whatsapp-token", placeholder) ], w1, []) /\
    String.length db = 32%nat /\ String.length admin = 24%nat /\
    String.length jwt = 64%nat.
Proof.
  unfold secrets_config, bind.
  destruct (generate_password_member 32 w) as [db [w1 [H1 [L1 _]]]].
  destruct (generate_password_member 24 w1) as [admin [w2 [H2 [L2 _]]]].
  destruct (generate_password_member 64 w2) as [jwt [w3 [H3 [L3 _]]]].
  rewrite H1, H2, H3. simpl. exists db, admin, jwt, w3. auto.
Qed.

(** C2. For every requested length [n], [_generate_password] returns, with
    no call to a collaborator, a string of exactly [n] characters (none when
    [n] is negative, where [range] is empty), each of them an ASCII upper- or
    lower-case letter, a digit or one of [!@#$%^&*]; and in [secrets_config],
    which [create_secrets] iterates over, the database password has length
    32 and the JWT secret length 64. *)
Theorem generate_password_length_and_alphabet (n : Z) (w : W) :
  (exists pw w1,
     _generate_password n w = (Ret pw, w1, []) /\
     String.length pw = Z.to_nat n /\
     Forall (fun ch => allowed ch = true) (list_ascii_of_string pw)) /\
  (exists config w1 db jwt,
     secrets_config w = (Ret config, w1, []) /\
     (forall c, create_secrets c w = for_each config (provision_secret c) [] w1) /\
     dict_get config "qitlalli-db-password" = Some db /\
     String.length db = 32%nat /\
     dict_get config "qitlalli-jwt-secret" = Some jwt /\
     String.length jwt = 64%nat).
Proof.
  split.
  - apply generate_password_member.
  - destruct (secrets_config_values w) as [db [admin [jwt [w1 [Hc [L1 [_ L3]]]]]]].
    eexists _, w1, db, jwt. split; [exact Hc|].
    split.
    + intros c. unfold create_secrets, bind. rewrite Hc.
      destruct (for_each _ _ _ w1) as [[o w2] t]. reflexivity.
    + simpl. auto.
Qed.

(** ** The loop of [create_secrets] *)

Lemma provision_secret_cases (c : GCPConfig) (d : dict) (name value : string) (w : W) :
  exists p w1,
    iteration c name value w p w1 /\
    provision_secret c d (name, value) w =
      (Ret (if is_created p then dict_set d name value else d), w1,
       provision_trace c (name, value, p)).
Proof.
  unfold provision_secret, try_except, try_bare, bind, call, log, ret.
  destruct (get_secret (secret_path (project_id c) name) w) as [[[]|e] w1] eqn:Hget.
  - exists AlreadyExists, w1. split; [now constructor | reflexivity].
  - destruct (create_secret ("projects/" +++ project_id c) name w1)
      as [[r|e1] w2] eqn:Hcreate.
    + destruct (add_secret_version r value w2) as [[[]|e2] w3] eqn:Hadd.
      * exists (Created r), w3. split; [econstructor; eassumption | reflexivity].
      * exists (AddVersionFailed r e2), w3.
        split; [econstructor; eassumption | reflexivity].
    + exists (CreateFailed e1), w2.
      split; [econstructor; eassumption | reflexivity].
Qed.

Lemma iterations_length (c : GCPConfig) (items : dict) (w w1 : W)
    (ps : list provisioning) :
  iterations c items w ps w1 -> List.length ps = List.length items.
Proof.
  induction 1; simpl; congruence.
Qed.

Lemma for_each_provision (c : GCPConfig) (items : dict) :
  forall (d : dict) (w : W),
  exists ps w1,
    iterations c items w ps w1 /\
    for_each items (provision_secret c) d w =
      (Ret (record_created d (combine items ps)), w1,
       flat_map (provision_trace c) (combine items ps)).
Proof.
  induction items as [|[name value] items IH]; intros d w.
  - exists [], w. split; [constructor | reflexivity].
  - destruct (provision_secret_cases c d name value w) as [p [w1 [Hit Hp]]].
    destruct (IH (if is_created p then dict_set d name value else d) w1)
      as [ps [w2 [Hits Hrest]]].
    exists (p :: ps), w2. split; [econstructor; eassumption|].
    cbn [for_each]. unfold bind at 1. rewrite Hp, Hrest. reflexivity.
Qed.

Lemma dict_set_fresh (d : dict) (k v : string) :
  ~ In k (map fst d) -> dict_set d k v = d ++ [(k, v)].
Proof.
  induction d as [|[k1 v1] d IH]; intros Hk; simpl.
  - reflexivity.
  - simpl in Hk. destruct (String.eqb_spec k1 k) as [->|Hne].
    + exfalso. auto.
    + rewrite IH; auto.
Qed.

Lemma record_created_fresh (items : dict) :
  forall (ps : list provisioning) (d : dict),
  NoDup (map fst items) ->
  (forall k, In k (map fst d) -> ~ In k (map fst items)) ->
  record_created d (combine items ps) =
    d ++ map fst (filter (fun r => is_created (snd r)) (combine items ps)).
Proof.
  induction items as [|[name value] items IH]; intros ps d Hnd Hd.
  - simpl. now rewrite app_nil_r.
  - destruct ps as [|p ps]; [simpl; now rewrite app_nil_r|].
    simpl in Hnd. inversion Hnd as [|? ? Hname Hnd1]; subst.
    unfold record_created. simpl. fold (record_created
      (if is_created p then dict_set d name value else d) (combine items ps)).
    destruct (is_created p) eqn:Hp.
    + rewrite dict_set_fresh.
      * rewrite IH; [simpl; now rewrite <- app_assoc | assumption |].
        intros k Hk Hin. rewrite map_app in Hk. apply in_app_or in Hk.
        destruct Hk as [Hk|[<-|[]]]; [|exact (Hname Hin)].
        apply (Hd k Hk). now right.
      * intros Hin. apply (Hd name Hin). now left.
    + rewrite IH; [reflexivity | assumption |].
      intros k Hk Hin. apply (Hd k Hk). now right.
Qed.

Lemma filter_snd_combine {A B} (f : B -> bool) (xs : list A) :
  forall ys : list B,
  List.length ys = List.length xs ->
  List.length (filter (fun r => f (snd r)) (combine xs ys)) = List.length (filter f ys).
Proof.
  induction xs as [|x xs IH]; intros [|y ys] Hlen; simpl in *; try discriminate; auto.
  destruct (f y); simpl; auto.
Qed.

Lemma create_secrets_reports (c : GCPConfig) (w : W) :
  exists config ps created w0 w1,
    secrets_config w = (Ret config, w0, []) /\
    iterations c config w0 ps w1 /\
    create_secrets c w =
      (Ret created, w1, flat_map (provision_trace c) (combine config ps)) /\
    map fst config = required_secrets /\
    Forall (fun kv => snd kv <> "") config /\
    created = map fst (filter (fun r => is_created (snd r)) (combine config ps)).
Proof.
  destruct (secrets_config_values w) as [db [admin [jwt [w1 [Hc [L1 [L2 L3]]]]]]].
  set (config := [ ("qitlalli-db-password", db); ("qitlalli-admin-password", admin);
                   ("qitlalli-jwt-secret", jwt); ("qitlalli-email-password", placeholder);
                   ("qitlalli-whatsapp-token", placeholder) ]) in *.
  destruct (for_each_provision c config [] w1) as [ps [w2 [Hits Hrun]]].
  exists config, ps, (record_created [] (combine config ps)), w1, w2.
  split; [exact Hc|]. split; [exact Hits|].
  split; [|split; [|split]].
  - unfold create_secrets, bind. rewrite Hc, Hrun. reflexivity.
  - reflexivity.
  - repeat constructor; simpl; try discriminate; intros ->; discriminate.
  - rewrite record_created_fresh; [reflexivity | | intros k []].
    simpl. repeat constructor; simpl; intuition discriminate.
Qed.

(** C1 (amended). For every name of the required set, in the order of the
    set, [create_secrets] checks the secret's existence and then ends the
    iteration in one of four ways, decided by the replies of the store
    ([iterations]): the secret is reported as existing and no other call is
    made for it; the secret is created and one version holding its non-empty
    value is added; the creation raises; the creation succeeds and the
    addition of the version raises.  In the last two cases the failure is
    logged and the loop goes on.  The returned mapping holds, in order,
    exactly the secrets of the second kind, so its size is the number of
    iterations that ended that way: 5 when all five did. *)
Theorem create_secrets_outcomes (c : GCPConfig) (w : W) :
  exists config ps created w0 w1 t,
    secrets_config w = (Ret config, w0, []) /\
    map fst config = required_secrets /\
    Forall (fun kv => snd kv <> "") config /\
    iterations c config w0 ps w1 /\
    List.length ps = 5%nat /\
    create_secrets c w = (Ret created, w1, t) /\
    t = flat_map (provision_trace c) (combine config ps) /\
    created = map fst (filter (fun r => is_created (snd r)) (combine config ps)) /\
    List.length created = List.length (filter is_created ps).
Proof.
  destruct (create_secrets_reports c w)
    as [config [ps [created [w0 [w1 [Hc [Hits [Hrun [Hnames [Hvals Hcreated]]]]]]]]]].
  exists config, ps, created, w0, w1,
    (flat_map (provision_trace c) (combine config ps)).
  pose proof (iterations_length _ _ _ _ _ Hits) as Hlen.
  assert (Hfive : List.length config = 5%nat).
  { rewrite <- (length_map fst), Hnames. reflexivity. }
  repeat split; try assumption; try congruence.
  subst created. rewrite length_map. now apply filter_snd_combine.
Qed.

Lemma existence_checks_app (t1 t2 : trace) :
  existence_checks (t1 ++ t2) = existence_checks t1 ++ existence_checks t2.
Proof.
  induction t1 as [|ev t1 IH]; simpl; [reflexivity|].
  destruct ev; simpl; rewrite ?IH; reflexivity.
Qed.

Lemma error_logs_app (t1 t2 : trace) :
  error_logs (t1 ++ t2) = error_logs t1 ++ error_logs t2.
Proof.
  induction t1 as [|ev t1 IH]; simpl; [reflexivity|].
  destruct ev as [| | | | | | | | |[] msg]; simpl; rewrite ?IH; reflexivity.
Qed.

Lemma existence_checks_reports (c : GCPConfig) (config : dict) :
  forall ps : list provisioning,
  List.length ps = List.length config ->
  existence_checks (flat_map (provision_trace c) (combine config ps)) =
    map (secret_path (project_id c)) (map fst config).
Proof.
  induction config as [|[name value] config IH]; intros [|p ps] Hlen;
    simpl in *; try discriminate; [reflexivity|].
  rewrite existence_checks_app, IH by congruence.
  destruct p; reflexivity.
Qed.

Lemma error_logs_reports (c : GCPConfig) (rs : list (string * string * provisioning)) :
  error_logs (flat_map (provision_trace c) rs) = flat_map failure_message rs.
Proof.
  induction rs as [|[[name value] p] rs IH]; [reflexivity|].
  cbn [flat_map]. rewrite error_logs_app, IH.
  destruct p; reflexivity.
Qed.

(** C4. Whatever the secret store answers, [create_secrets] returns (it
    raises nothing and does not exit); it checks the existence of every
    required secret, once each and in order, whether or not earlier
    iterations failed; and every iteration that fails leaves one message at
    level [ERROR], these being the only errors logged. *)
Theorem create_secrets_best_effort (c : GCPConfig) (w : W) :
  exists config ps created w0 w1 t,
    secrets_config w = (Ret config, w0, []) /\
    map fst config = required_secrets /\
    iterations c config w0 ps w1 /\
    create_secrets c w = (Ret created, w1, t) /\
    t = flat_map (provision_trace c) (combine config ps) /\
    existence_checks t = map (secret_path (project_id c)) required_secrets /\
    error_logs t = flat_map failure_message (combine config ps).
Proof.
  destruct (create_secrets_reports c w)
    as [config [ps [created [w0 [w1 [Hc [Hits [Hrun [Hnames _]]]]]]]]].
  exists config, ps, created, w0, w1,
    (flat_map (provision_trace c) (combine config ps)).
  pose proof (iterations_length _ _ _ _ _ Hits) as Hlen.
  repeat split; try assumption.
  - rewrite existence_checks_reports by assumption. now rewrite Hnames.
  - apply error_logs_reports.
Qed.

(** ** The health check *)

(** C3. For every URL, [run_health_check url] returns a boolean, whatever
    the HTTP client does: it never raises.  Its trace holds one GET request,
    to [url] followed by [/web/health], with a timeout of 30 seconds, sent
    after the initial wait; and the boolean is [true] exactly when that
    request returns a response of status 200, so that any other status and
    any exception raised by the request give [false]. *)
Theorem run_health_check_true_iff_200 (url : string) (w : W) :
  exists b w1 t,
    run_health_check url w = (Ret b, w1, t) /\
    http_requests t = [(url +++ "/web/health", 30%Z)] /\
    (b = true <->
     exists w2,
       http_get (url +++ "/web/health") 30 (sleep 30 w) = (Returned 200%Z, w2)).
Proof.
  unfold run_health_check, try_except, bind, call, log, do_sleep, ret, health_url_of.
  destruct (http_get (url +++ "/web/health") 30 (sleep 30 w))
    as [[status|e] w1] eqn:Hget.
  - destruct (Z.eqb_spec status 200) as [->|Hne].
    + eexists true, w1, _. simpl. repeat split; eauto.
    + eexists false, w1, _. simpl. repeat split; try discriminate.
      intros [w2 H]. congruence.
  - eexists false, w1, _. simpl. repeat split; try discriminate.
    intros [w2 H]. discriminate.
Qed.

(** ** The service URL and the region *)

(** C9. [get_service_url] returns the same URL for any two configurations
    with the same project id and service name, whatever their other fields
    and whatever the environments; it produces no event and leaves the
    environment as it found it. *)
Theorem get_service_url_depends_on_project_and_service
    (c1 c2 : GCPConfig) (w1 w2 : W) :
  project_id c1 = project_id c2 ->
  service_name c1 = service_name c2 ->
  exists url,
    get_service_url c1 w1 = (Ret (Some url), w1, []) /\
    get_service_url c2 w2 = (Ret (Some url), w2, []).
Proof.
  intros Hp Hs. exists (service_url_of c1).
  unfold get_service_url, try_except, ret, service_url_of.
  rewrite Hp, Hs. split; reflexivity.
Qed.

(** C10. Two configurations that differ in the region alone behave alike:
    [create_secrets] is the same computation for both (the same names, the
    same value lengths, the same calls), the image tag and the build
    submitted are the same, and so are the service URL and the URL the
    health check requests. *)
Theorem region_is_not_observable (c1 c2 : GCPConfig) :
  project_id c1 = project_id c2 ->
  service_name c1 = service_name c2 ->
  db_instance_name c1 = db_instance_name c2 ->
  service_account c1 = service_account c2 ->
  (forall w : W, create_secrets c1 w = create_secrets c2 w) /\
  image_tag c1 = image_tag c2 /\
  build_config c1 = build_config c2 /\
  (forall w : W, build_and_deploy c1 w = build_and_deploy c2 w) /\
  (forall w : W, get_service_url c1 w = get_service_url c2 w) /\
  health_url_of (service_url_of c1) = health_url_of (service_url_of c2) /\
  (forall w : W, run_health_check (service_url_of c1) w =
                 run_health_check (service_url_of c2) w) /\
  (forall (action : string) (w : W),
     orchestrate (mkArgs (project_id c1) (region c1) action) w =
     orchestrate (mkArgs (project_id c2) (region c2) action) w).
Proof.
  destruct c1 as [p1 r1 s1 d1 a1], c2 as [p2 r2 s2 d2 a2]. simpl.
  intros -> -> -> ->. repeat split.
Qed.

(** ** [main] *)

Lemma init_events (w w1 : W) (o : outcome unit) (t : trace) :
  init w = (o, w1, t) -> forallb constructor_event t = true.
Proof.
  unfold init, bind, call.
  repeat match goal with
         | |- context [match ?f ?x with _ => _ end] =>
             match type of (f x) with
             | (reply _ * _)%type => destruct (f x) as [[[]|?] ?]
             end
         end;
    intros [= <- <- <-]; reflexivity.
Qed.

Lemma check_authentication_true (w w1 : W) (t : trace) :
  check_authentication w = (Ret true, w1, t) ->
  t = [EListProjects; ELog INFO "✅ GCP authentication verified"].
Proof.
  unfold check_authentication, try_except, bind, call, log, ret.
  destruct (list_projects w) as [[[]|[[] msg]] w2]; simpl;
    intros [= <- <-]; reflexivity.
Qed.

Lemma check_authentication_false (w w1 : W) (t : trace) :
  check_authentication w = (Ret false, w1, t) ->
  exists msg, t = [EListProjects; ELog ERROR msg].
Proof.
  unfold check_authentication, try_except, bind, call, log, ret.
  destruct (list_projects w) as [[[]|[[] msg]] w2]; simpl;
    intros [= <- <-]; eauto.
Qed.

Lemma build_and_deploy_true (c : GCPConfig) (w w1 : W) (t : trace) :
  build_and_deploy c w = (Ret true, w1, t) ->
  t = [ELog INFO "🐳 Starting Docker build...";
       ECreateBuild ("projects/" +++ project_id c) (build_config c);
       ELog INFO "✅ Docker build submitted successfully"].
Proof.
  unfold build_and_deploy, try_except, bind, call, log, ret.
  destruct (create_build _ _ w) as [[[]|e] w2]; simpl;
    intros [= <- <-]; reflexivity.
Qed.

Lemma build_and_deploy_false (c : GCPConfig) (w w1 : W) (t : trace) :
  build_and_deploy c w = (Ret false, w1, t) ->
  exists e,
    t = [ELog INFO "🐳 Starting Docker build...";
         ECreateBuild ("projects/" +++ project_id c) (build_config c);
         ELog ERROR ("❌ Build and deployment failed: " +++ exn_msg e)].
Proof.
  unfold build_and_deploy, try_except, bind, call, log, ret.
  destruct (create_build _ _ w) as [[[]|e] w2]; simpl;
    intros [= <- <-]; eauto.
Qed.

Lemma constructor_not_url_or_health (t : trace) :
  forallb constructor_event t = true ->
  forallb (fun ev => negb (url_or_health_event ev)) t = true.
Proof.
  induction t as [|ev t IH]; simpl; [reflexivity|].
  intros H. apply andb_prop in H as [Hev Ht]. rewrite IH by assumption.
  destruct ev; simpl in *; try discriminate; reflexivity.
Qed.

(** When the constructor raises (no default credentials, say), nothing
    catches the exception: the process ends with status 1 before the
    authentication check. *)
Lemma constructor_failure_exits
    (argv : list cli_arg) (args : Args) (w w1 : W) (e : exn) (t1 : trace) :
  parse_args argv = Ret args ->
  init w = (Raise e, w1, t1) ->
  run argv w = (1%Z, w1, t1).
Proof.
  intros Hparse Hinit.
  unfold run, main, bind at 1. rewrite Hparse.
  unfold orchestrate, bind at 1. rewrite Hinit. reflexivity.
Qed.

(** C5. Whatever the action, when the manager is constructed and its
    authentication check returns [False], the process exits with status 1
    and has done nothing else: its events are those of the constructor
    followed by those of the check (the probe and one error record), and the
    environment is the one the check left.  No secret is looked up or
    created, no service account is set up, no build is submitted and no
    health check is made. *)
Theorem authentication_failure_exits_first
    (argv : list cli_arg) (args : Args) (w w1 w2 : W) (t1 t2 : trace) :
  parse_args argv = Ret args ->
  init w = (Ret tt, w1, t1) ->
  check_authentication w1 = (Ret false, w2, t2) ->
  run argv w = (1%Z, w2, t1 ++ t2) /\
  forallb constructor_event t1 = true /\
  exists msg, t2 = [EListProjects; ELog ERROR msg].
Proof.
  intros Hparse Hinit Hauth. split; [|split].
  - unfold run, main, bind at 1. rewrite Hparse.
    unfold orchestrate, bind. rewrite Hinit, Hauth. simpl.
    now rewrite app_nil_r.
  - exact (init_events _ _ _ _ Hinit).
  - exact (check_authentication_false _ _ _ Hauth).
Qed.

(** C6. For the action [deploy], when [build_and_deploy] returns [False]
    the process exits with status 1.  After the build's own events the only
    event is the error record of [main]: the service URL is not computed or
    logged, the process does not wait and sends no HTTP request, and the
    environment is the one the failed submission left. *)
Theorem build_failure_exits_without_health_check
    (argv : list cli_arg) (args : Args) (w w1 w2 w3 : W) (t1 t2 t3 : trace) :
  parse_args argv = Ret args ->
  args_action args = "deploy" ->
  init w = (Ret tt, w1, t1) ->
  check_authentication w1 = (Ret true, w2, t2) ->
  build_and_deploy (new_config (args_project_id args) (args_region args)) w2 =
    (Ret false, w3, t3) ->
  let t := t1 ++ t2
           ++ [ELog INFO ("🚀 Starting QiTlalli deploy for project: "
                          +++ args_project_id args);
               ELog INFO "🚀 Starting deployment..."]
           ++ t3
           ++ [ELog ERROR "❌ Deployment failed: Build and deployment failed"] in
  run argv w = (1%Z, w3, t) /\
  forallb (fun ev => negb (url_or_health_event ev)) t = true /\
  http_requests t = [].
Proof.
  intros Hparse Haction Hinit Hauth Hbuild t.
  assert (Hrun : run argv w = (1%Z, w3, t)).
  { unfold run, main, bind at 1. rewrite Hparse.
    unfold orchestrate, bind at 1. rewrite Hinit.
    unfold bind at 1. rewrite Hauth.
    rewrite Haction. unfold dispatch, try_except, bind, log, ret, raise, sys_exit.
    simpl. rewrite Hbuild. simpl. subst t.
    repeat rewrite <- app_assoc. reflexivity. }
  split; [exact Hrun|]. clear Hrun. subst t.
  pose proof (init_events _ _ _ _ Hinit) as H1.
  rewrite (check_authentication_true _ _ _ Hauth).
  destruct (build_and_deploy_false _ _ _ _ Hbuild) as [e ->].
  clear Hinit. split.
  - rewrite forallb_app, (constructor_not_url_or_health _ H1). reflexivity.
  - induction t1 as [|ev t1 IH]; [reflexivity|].
    simpl in H1. apply andb_prop in H1 as [Hev H1].
    destruct ev; simpl in *; try discriminate; auto.
Qed.

(** C7. For the action [deploy], when the build is submitted and the
    health check then returns [False], [main] logs a warning and returns:
    the exit status is 0.  The warning is the only event after those of the
    health check (which has itself logged the failure), and the environment
    is the one the health check left: nothing is undone. *)
Theorem failed_health_check_is_a_warning
    (argv : list cli_arg) (args : Args) (w w1 w2 w3 w4 : W)
    (t1 t2 t3 t4 : trace) :
  let config := new_config (args_project_id args) (args_region args) in
  parse_args argv = Ret args ->
  args_action args = "deploy" ->
  init w = (Ret tt, w1, t1) ->
  check_authentication w1 = (Ret true, w2, t2) ->
  build_and_deploy config w2 = (Ret true, w3, t3) ->
  run_health_check (service_url_of config) w3 = (Ret false, w4, t4) ->
  run argv w =
    (0%Z, w4,
     t1 ++ t2
     ++ [ELog INFO ("🚀 Starting QiTlalli deploy for project: "
                    +++ args_project_id args);
         ELog INFO "🚀 Starting deployment..."]
     ++ t3
     ++ [ELog INFO ("🌐 Service URL: " +++ service_url_of config)]
     ++ t4
     ++ [ELog WARNING "⚠️ Deployment completed but health check failed"]).
Proof.
  intros config Hparse Haction Hinit Hauth Hbuild Hhealth.
  unfold run, main, bind at 1. rewrite Hparse.
  unfold orchestrate, bind at 1. rewrite Hinit.
  unfold bind at 1. rewrite Hauth.
  rewrite Haction. fold config.
  unfold dispatch, try_except, bind, log, ret, raise, sys_exit, get_service_url.
  simpl. fold config. rewrite Hbuild. simpl. rewrite Hhealth. simpl.
  repeat rewrite <- app_assoc. reflexivity.
Qed.

(** ** The command line *)

Lemma last_cons {A} (x d : A) (l : list A) : last (x :: l) d = last l x.
Proof.
  revert x d. induction l as [|y l IH]; intros x d; [reflexivity|].
  change (last (x :: y :: l) d) with (last (y :: l) d).
  now rewrite !IH.
Qed.

Lemma consume_args_spec (argv : list cli_arg) :
  forall ns : Namespace,
  consume_args argv ns =
    if forallb valid_action (supplied_actions argv) then
      Ret (mkNamespace
             (last (map Some (supplied_project_ids argv)) (ns_project_id ns))
             (last (supplied_regions argv) (ns_region ns))
             (last (supplied_actions argv) (ns_action ns)))
    else Exit 2.
Proof.
  induction argv as [|[v|v|v] argv IH]; intros ns.
  - destruct ns; reflexivity.
  - cbn [consume_args supplied_actions supplied_project_ids supplied_regions map].
    rewrite IH, last_cons. reflexivity.
  - cbn [consume_args supplied_actions supplied_project_ids supplied_regions map].
    rewrite IH, last_cons. reflexivity.
  - cbn [consume_args supplied_actions supplied_project_ids supplied_regions map forallb].
    fold (valid_action v). destruct (valid_action v); [|reflexivity].
    rewrite IH, last_cons. reflexivity.
Qed.

(** C8 (amended). [--action] is optional.  A command line is rejected, with
    exit status 2 and before anything is done, exactly when it gives
    [--action] a value other than [setup], [deploy] and [secrets], or gives
    no [--project-id].  Otherwise it is accepted: the action is the last one
    given, [deploy] when none is given, the region the last one given,
    [us-central1] when none is given; the accepted action is one of the
    three, and the process goes on with it. *)
Theorem parse_args_action_choices_and_default (argv : list cli_arg) :
  parse_args argv =
    (if forallb valid_action (supplied_actions argv) then
       match last (map Some (supplied_project_ids argv)) None with
       | Some p =>
           Ret (mkArgs p (last (supplied_regions argv) "us-central1")
                         (last (supplied_actions argv) "deploy"))
       | None => Exit 2
       end
     else Exit 2) /\
  match parse_args argv with
  | Ret args =>
      In (args_action args) action_choices /\
      forall w : W,
        run argv w =
          (let '(o, w1, t) := orchestrate args w in (exit_status o, w1, t))
  | Raise _ => False
  | Exit code => code = 2%Z /\ forall w : W, run argv w = (2%Z, w, [])
  end.
Proof.
  assert (Hspec : parse_args argv =
    (if forallb valid_action (supplied_actions argv) then
       match last (map Some (supplied_project_ids argv)) None with
       | Some p =>
           Ret (mkArgs p (last (supplied_regions argv) "us-central1")
                         (last (supplied_actions argv) "deploy"))
       | None => Exit 2
       end
     else Exit 2)).
  { unfold parse_args. rewrite consume_args_spec.
    destruct (forallb valid_action (supplied_actions argv)); [|reflexivity].
    simpl. destruct (last _ None); reflexivity. }
  split; [exact Hspec|].
  assert (Hrun : forall w : W, run argv w =
    match parse_args argv with
    | Ret args => let '(o, w1, t) := orchestrate args w in (exit_status o, w1, t)
    | Raise _ => (1%Z, w, [])
    | Exit code => (code, w, [])
    end).
  { intros w. unfold run, main, bind at 1.
    destruct (parse_args argv); try reflexivity.
    destruct (orchestrate a w) as [[o w1] t]. reflexivity. }
  rewrite Hspec in *.
  destruct (forallb valid_action (supplied_actions argv)) eqn:Hvalid.
  - destruct (last (map Some (supplied_project_ids argv)) None) as [p|].
    + split; [|exact Hrun]. simpl.
      assert (Hin : forall l d, forallb valid_action l = true ->
                 In d action_choices -> In (last l d) action_choices).
      { induction l as [|x l IHl]; intros d Hl Hd; [exact Hd|].
        rewrite last_cons. simpl in Hl. apply andb_prop in Hl as [Hx Hl].
        apply IHl; [exact Hl|].
        unfold valid_action in Hx. apply existsb_exists in Hx as [y [Hy Heq]].
        apply String.eqb_eq in Heq. now subst. }
      apply Hin; [exact Hvalid | simpl; auto].
    + split; [reflexivity | exact Hrun].
  - split; [reflexivity | exact Hrun].
Qed.

End Properties.

(** * Runs on the simulated project *)

(** First run of [secrets] on an empty project: five creations, five
    secrets reported; a second run creates nothing. *)
Example secrets_on_fresh_project :
  let '(status, p, t) := run [ArgProjectId "demo"; ArgAction "secrets"] fresh_project in
  status = 0%Z /\
  List.length (secret_store p) = 5%nat /\
  last t EAuthDefault = ELog INFO "✅ Managed 5 secrets" /\
  let '(status2, p2, t2) := run [ArgProjectId "demo"; ArgAction "secrets"] p in
  status2 = 0%Z /\
  secret_store p2 = secret_store p /\
  last t2 EAuthDefault = ELog INFO "✅ Managed 0 secrets".
Proof. vm_compute. repeat split. Qed.

(** C1, as stated, fails.  When the caller may not create secrets, the
    database password is neither reported as existing nor created: its
    creation is refused, and the refusal is logged.  When the caller may
    create secrets but not add versions, the five secrets are created in
    this run and none of them is in the returned mapping. *)
Lemma create_secrets_neither_existing_nor_created :
  (let '(o, p, t) := create_secrets demo_config locked_project in
   o = Ret [] /\
   secret_store p = [] /\
   firstn 3 t =
     [ EGetSecret "projects/demo/secrets/qitlalli-db-password";
       ECreateSecret "projects/demo" "qitlalli-db-password";
       ELog ERROR "❌ Failed to create secret qitlalli-db-password: 403 Permission denied" ] /\
   existsb (fun ev => match ev with
                      | EAddSecretVersion _ _ | ELog INFO _ => true
                      | _ => false
                      end) t = false) /\
  (let '(o, p, t) := create_secrets demo_config sealed_project in
   o = Ret [] /\
   secret_store p =
     map (fun name => (secret_path "demo" name, [])) required_secrets).
Proof. vm_compute. repeat split. Qed.

(** C8, as stated, fails.  A command line without [--action] is accepted as
    [deploy], and the deployment runs: the build is submitted. *)
Lemma omitted_action_runs_deploy :
  parse_args [ArgProjectId "demo"] = Ret (mkArgs "demo" "us-central1" "deploy") /\
  (let '(status, p, t) := run [ArgProjectId "demo"] fresh_project in
   status = 0%Z /\ submitted p = [build_config demo_config]).
Proof. vm_compute. repeat split. Qed.

(** The hypotheses of C5 hold of a caller who may not list projects, asking
    for [setup]. *)
Lemma authentication_failure_exits_first_witness :
  run [ArgProjectId "demo"; ArgAction "setup"] unauthorized_project =
    (1%Z, unauthorized_project,
     constructor_trace
     ++ [EListProjects;
         ELog ERROR "❌ Authentication check failed: 403 Permission denied"]) /\
  forallb constructor_event constructor_trace = true /\
  exists msg,
    [EListProjects;
     ELog ERROR "❌ Authentication check failed: 403 Permission denied"] =
    [EListProjects; ELog ERROR msg].
Proof.
  apply (authentication_failure_exits_first
           [ArgProjectId "demo"; ArgAction "setup"]
           (mkArgs "demo" "us-central1" "setup")
           unauthorized_project unauthorized_project unauthorized_project);
    reflexivity.
Defined.

(** The hypotheses of C6 hold when the build service is down. *)
Lemma build_failure_exits_without_health_check_witness :
  run [ArgProjectId "demo"] stalled_project =
    (1%Z, stalled_project,
     constructor_trace
     ++ [EListProjects; ELog INFO "✅ GCP authentication verified"]
     ++ [ELog INFO "🚀 Starting QiTlalli deploy for project: demo";
         ELog INFO "🚀 Starting deployment..."]
     ++ [ELog INFO "🐳 Starting Docker build...";
         ECreateBuild "projects/demo" (build_config demo_config);
         ELog ERROR "❌ Build and deployment failed: 503 Service unavailable"]
     ++ [ELog ERROR "❌ Deployment failed: Build and deployment failed"]).
Proof.
  apply (build_failure_exits_without_health_check
           [ArgProjectId "demo"] (mkArgs "demo" "us-central1" "deploy")
           stalled_project stalled_project stalled_project stalled_project
           constructor_trace
           [EListProjects; ELog INFO "✅ GCP authentication verified"]
           [ELog INFO "🐳 Starting Docker build...";
            ECreateBuild "projects/demo" (build_config demo_config);
            ELog ERROR "❌ Build and deployment failed: 503 Service unavailable"]);
    reflexivity.
Defined.

(** The hypotheses of C7 hold of a service that answers 503. *)
Lemma failed_health_check_is_a_warning_witness :
  let built := snd (sim_create_build "projects/demo" (build_config demo_config)
                      unhealthy_project) in
  run [ArgProjectId "demo"; ArgAction "deploy"] unhealthy_project =
    (0%Z, sim_sleep 30 built,
     constructor_trace
     ++ [EListProjects; ELog INFO "✅ GCP authentication verified"]
     ++ [ELog INFO "🚀 Starting QiTlalli deploy for project: demo";
         ELog INFO "🚀 Starting deployment..."]
     ++ [ELog INFO "🐳 Starting Docker build...";
         ECreateBuild "projects/demo" (build_config demo_config);
         ELog INFO "✅ Docker build submitted successfully"]
     ++ [ELog INFO "🌐 Service URL: https://qitlalli-odoo-demo.run.app"]
     ++ [ELog INFO "⏳ Waiting for service to be ready...";
         ESleep 30;
         EHttpGet "https://qitlalli-odoo-demo.run.app/web/health" 30;
         ELog ERROR "❌ Health check failed: HTTP 503"]
     ++ [ELog WARNING "⚠️ Deployment completed but health check failed"]).
Proof.
  intros built.
  apply (failed_health_check_is_a_warning
           [ArgProjectId "demo"; ArgAction "deploy"]
           (mkArgs "demo" "us-central1" "deploy")
           unhealthy_project unhealthy_project unhealthy_project built
           (sim_sleep 30 built));
    reflexivity.
Defined.

(** The hypotheses of C9 hold of two configurations of the same project in
    two regions, in two different environments. *)
Lemma get_service_url_depends_on_project_and_service_witness :
  exists url,
    get_service_url demo_config fresh_project = (Ret (Some url), fresh_project, []) /\
    get_service_url europe_config unhealthy_project =
      (Ret (Some url), unhealthy_project, []).
Proof.
  apply get_service_url_depends_on_project_and_service; reflexivity.
Defined.

(** The hypotheses of C10 hold of the same two configurations. *)
Lemma region_is_not_observable_witness :
  (forall w : Project, create_secrets demo_config w = create_secrets europe_config w) /\
  image_tag demo_config = image_tag europe_config /\
  build_config demo_config = build_config europe_config /\
  (forall w : Project, build_and_deploy demo_config w = build_and_deploy europe_config w) /\
  (forall w : Project, get_service_url demo_config w = get_service_url europe_config w) /\
  health_url_of (service_url_of demo_config) = health_url_of (service_url_of europe_config) /\
  (forall w : Project, run_health_check (service_url_of demo_config) w =
                       run_health_check (service_url_of europe_config) w) /\
  (forall (action : string) (w : Project),
     orchestrate (mkArgs "demo" "us-central1" action) w =
     orchestrate (mkArgs "demo" "europe-west1" action) w).
Proof.
  apply (region_is_not_observable demo_config europe_config); reflexivity.
Defined.

(** * Further properties of the manager *)

Section Methods.

Context {W : Type} {cloud : Cloud W}.

(** ** The methods return *)

Lemma check_authentication_total (w : W) :
  exists b w1 t, check_authentication w = (Ret b, w1, t).
Proof.
  unfold check_authentication, try_except, bind, call, log, ret.
  destruct (list_projects w) as [[[]|[[] msg]] w1]; simpl; eauto.
Qed.


Lemma run_health_check_total (url : string) (w : W) :
  exists b w1 msg l,
    run_health_check url w =
      (Ret b, w1,
       [ ELog INFO "⏳ Waiting for service to be ready..."; ESleep 30;
         EHttpGet (url +++ "/web/health") 30; ELog l msg ]).
Proof.
  unfold run_health_check, try_except, bind, call, log, do_sleep, ret, health_url_of.
  destruct (http_get (url +++ "/web/health") 30 (sleep 30 w)) as [[status|e] w1].
  - destruct (status =? 200)%Z; simpl; eauto 6.
  - simpl. eauto 6.
Qed.



(** X2. [build_and_deploy] returns a boolean whatever the build service
    does.  It submits one build, the one of [build_config] under
    [projects/<project id>], and makes no other call: nothing is deployed.
    It returns [True] exactly when the submission returns.  The image built,
    the image pushed and the image declared are the same tag. *)
Theorem build_and_deploy_submits_one_build (c : GCPConfig) (w : W) :
  exists b w1 t,
    build_and_deploy c w = (Ret b, w1, t) /\
    filter step_event t =
      [ECreateBuild ("projects/" +++ project_id c) (build_config c)] /\
    (b = true <->
     exists w2,
       create_build ("projects/" +++ project_id c) (build_config c) w
       = (Returned tt, w2)) /\
    images (build_config c) = [image_tag c] /\
    Forall (fun st => In (image_tag c) (step_args st)) (steps (build_config c)).
Proof.
  assert (Htags : Forall (fun st => In (image_tag c) (step_args st))
                    (steps (build_config c))).
  { unfold build_config. simpl.
    constructor; [simpl; auto 10|]. constructor; [simpl; auto|]. constructor. }
  unfold build_and_deploy, try_except, bind, call, log, ret.
  destruct (create_build ("projects/" +++ project_id c) (build_config c) w)
    as [[[]|e] w1] eqn:Hb; simpl.
  - exists true, w1. eexists. repeat split; eauto.
  - exists false, w1. eexists. repeat split; try discriminate; try assumption.
    intros [w2 H]. discriminate.
Qed.

(** X3. The constructor asks for the default credentials first, then
    creates the five clients in a fixed order, and stops at the first call
    that raises: what it has done is always an initial part of
    [constructor_trace], the whole of it when it returns.  It never exits. *)
Theorem init_stops_at_the_first_failure (w : W) :
  exists o w1 t,
    init w = (o, w1, t) /\
    match o with
    | Ret _ => t = constructor_trace
    | Raise _ => t <> [] /\ exists rest, constructor_trace = t ++ rest
    | Exit _ => False
    end.
Proof.
  unfold init, bind, call.
  repeat match goal with
         | |- context [match ?f ?x with _ => _ end] =>
             match type of (f x) with
             | (reply _ * _)%type => destruct (f x) as [[[]|?] ?]
             end
         end;
    eexists _, _, _; (split; [reflexivity|]); simpl;
    try reflexivity; (split; [discriminate | eexists; reflexivity]).
Qed.

(** ** More on the loop of [create_secrets] *)

Lemma creation_calls_app (t1 t2 : trace) :
  creation_calls (t1 ++ t2) = creation_calls t1 ++ creation_calls t2.
Proof.
  induction t1 as [|ev t1 IH]; simpl; [reflexivity|].
  destruct ev; simpl; rewrite ?IH; reflexivity.
Qed.

Lemma version_payloads_app (t1 t2 : trace) :
  version_payloads (t1 ++ t2) = version_payloads t1 ++ version_payloads t2.
Proof.
  induction t1 as [|ev t1 IH]; simpl; [reflexivity|].
  destruct ev; simpl; rewrite ?IH; reflexivity.
Qed.


(** What the calls of a loop over [config] say, by induction on [config]:
    the creations asked for are for names of [config], each at most once and
    under the project; a version is only added after a creation; what is
    returned are entries of [config] whose value was sent as a version. *)
Lemma reports_calls (c : GCPConfig) (config : dict) :
  forall ps : list provisioning,
  let rs := combine config ps in
  let t := flat_map (provision_trace c) rs in
  let created := map fst (filter (fun r => is_created (snd r)) rs) in
  Forall (fun pc => fst pc = "projects/" +++ project_id c /\
                    In (snd pc) (map fst config)) (creation_calls t) /\
  (NoDup (map fst config) -> NoDup (map snd (creation_calls t))) /\
  (List.length (version_payloads t) <= List.length (creation_calls t)
   <= List.length config)%nat /\
  incl created config /\
  incl (map fst created) (map snd (creation_calls t)) /\
  incl (map snd created) (version_payloads t).
Proof.
  induction config as [|[name value] config IH]; intros ps; simpl.
  - repeat split; auto using incl_nil_l; constructor.
  - destruct ps as [|p ps]; simpl.
    + repeat split; auto using incl_nil_l; try constructor; lia.
    + specialize (IH ps). cbv zeta in IH.
      destruct IH as [Hall [Hnd [[Hle1 Hle2] [Hin [Hk Hv]]]]].
      set (rs := combine config ps) in *.
      set (t := flat_map (provision_trace c) rs) in *.
      assert (Hall' : Forall (fun pc => fst pc = "projects/" +++ project_id c /\
                        (name = snd pc \/ In (snd pc) (map fst config)))
                        (creation_calls t)).
      { eapply Forall_impl; [|exact Hall]. intros pc [H1 H2]. auto. }
      assert (Hfresh : NoDup (name :: map fst config) ->
                       ~ In name (map snd (creation_calls t))).
      { intros Hn Hname. inversion Hn as [|? ? Hnot _]; subst. apply Hnot.
        apply in_map_iff in Hname as [pc [Heq Hpc]].
        rewrite Forall_forall in Hall. destruct (Hall pc Hpc) as [_ H].
        now rewrite <- Heq. }
      destruct p; simpl; rewrite ?creation_calls_app, ?version_payloads_app; simpl.
      * repeat split; auto; try lia.
        -- intros Hn. apply Hnd. now inversion Hn.
        -- now apply incl_tl.
      * repeat split; auto; try lia.
        -- intros Hn. constructor; [now apply Hfresh|]. apply Hnd. now inversion Hn.
        -- apply incl_cons; [now left | now apply incl_tl].
        -- apply incl_cons; [now left | now apply incl_tl].
        -- apply incl_cons; [now left | now apply incl_tl].
      * repeat split; auto; try lia.
        -- intros Hn. constructor; [now apply Hfresh|]. apply Hnd. now inversion Hn.
        -- now apply incl_tl.
        -- now apply incl_tl.
      * repeat split; auto; try lia.
        -- intros Hn. constructor; [now apply Hfresh|]. apply Hnd. now inversion Hn.
        -- now apply incl_tl.
        -- now apply incl_tl.
        -- now apply incl_tl.
Qed.

Lemma required_secrets_distinct : NoDup required_secrets.
Proof.
  unfold required_secrets. repeat constructor; simpl; intuition discriminate.
Qed.

(** X4. Whatever the store answers, [create_secrets] asks for the creation
    of required secrets only, under [projects/<project id>] and at most once
    for each name, so at most five times; it adds a version only after
    asking for a creation, so never to a secret that it found. *)
Theorem create_secrets_creates_only_required_secrets (c : GCPConfig) (w : W) :
  exists created w1 t,
    create_secrets c w = (Ret created, w1, t) /\
    Forall (fun pc => fst pc = "projects/" +++ project_id c /\
                      In (snd pc) required_secrets) (creation_calls t) /\
    NoDup (map snd (creation_calls t)) /\
    (List.length (version_payloads t) <= List.length (creation_calls t) <= 5)%nat.
Proof.
  destruct (create_secrets_reports c w)
    as [config [ps [created [w0 [w1 [_ [_ [Hrun [Hnames _]]]]]]]]].
  destruct (reports_calls c config ps) as [Hall [Hnd [Hle _]]].
  rewrite Hnames in *.
  exists created, w1, (flat_map (provision_trace c) (combine config ps)).
  repeat split; try assumption; try apply Hle.
  - apply Hnd, required_secrets_distinct.
  - replace 5%nat with (List.length config); [apply Hle|].
    rewrite <- (length_map fst), Hnames. reflexivity.
Qed.

(** X5. The mapping [create_secrets] returns has one entry per name at
    most, each of them an entry of [secrets_config] (a required name with
    the value computed for it in this run), for a secret whose creation was
    asked for in this run and whose value was sent to the store as a
    version. *)
Theorem create_secrets_returns_what_it_stored (c : GCPConfig) (w : W) :
  exists config created w0 w1 t,
    secrets_config w = (Ret config, w0, []) /\
    create_secrets c w = (Ret created, w1, t) /\
    incl created config /\
    NoDup (map fst created) /\
    incl (map fst created) (map snd (creation_calls t)) /\
    incl (map snd created) (version_payloads t).
Proof.
  destruct (create_secrets_reports c w)
    as [config [ps [created [w0 [w1 [Hc [_ [Hrun [Hnames [_ Hcreated]]]]]]]]]].
  destruct (reports_calls c config ps) as [_ [_ [_ [Hin [Hk Hv]]]]].
  rewrite <- Hcreated in *.
  exists config, created, w0, w1, (flat_map (provision_trace c) (combine config ps)).
  repeat split; try assumption.
  assert (Hsub : forall (xs : dict) (qs : list provisioning),
            NoDup (map fst xs) ->
            NoDup (map fst (map fst (filter (fun r => is_created (snd r))
                                            (combine xs qs))))).
  { induction xs as [|[n v] xs IHxs]; intros qs Hn; [constructor|].
    destruct qs as [|q qs]; [constructor|]. simpl in *.
    inversion Hn as [|? ? Hnot Hn1]; subst.
    destruct (is_created q); simpl; [|now apply IHxs].
    constructor; [|now apply IHxs].
    intros Hname. apply Hnot.
    apply in_map_iff in Hname as [[n1 v1] [Heq Hr]]. simpl in Heq. subst n1.
    apply in_map_iff in Hr as [[kv q1] [Heq Hr]]. simpl in Heq. subst kv.
    apply filter_In in Hr as [Hr _]. apply in_combine_l in Hr.
    apply in_map_iff. now exists (n, v1). }
  subst created. apply Hsub. rewrite Hnames. apply required_secrets_distinct.
Qed.



Lemma for_each_existing (c : GCPConfig) (items : dict) :
  forall (d : dict) (w w1 : W),
  checks_return c (map fst items) w = Some w1 ->
  for_each items (provision_secret c) d w =
    (Ret d, w1, flat_map (existing_trace c) (map fst items)).
Proof.
  induction items as [|[name value] items IH]; intros d w w1 Hchecks.
  - simpl in Hchecks. injection Hchecks as <-. reflexivity.
  - cbn [map fst checks_return] in Hchecks.
    destruct (get_secret (secret_path (project_id c) name) w)
      as [[[]|e] w2] eqn:Hget; [|discriminate].
    assert (Hp : provision_secret c d (name, value) w =
                 (Ret d, w2, existing_trace c name)).
    { unfold provision_secret, try_except, try_bare, bind, call, log, ret.
      rewrite Hget. reflexivity. }
    cbn [for_each]. unfold bind at 1.
    rewrite Hp, (IH d w2 w1 Hchecks). reflexivity.
Qed.

(** X7. When the existence check of each of the five secrets returns,
    [create_secrets] changes nothing: it makes the five checks, logs each
    secret as existing, asks for no creation and no version, and returns an
    empty mapping (the values it has generated are dropped). *)
Theorem create_secrets_creates_nothing_when_all_exist
    (c : GCPConfig) (config : dict) (w w0 w1 : W) :
  secrets_config w = (Ret config, w0, []) ->
  checks_return c required_secrets w0 = Some w1 ->
  create_secrets c w =
    (Ret [], w1, flat_map (existing_trace c) required_secrets) /\
  filter mutation_event (flat_map (existing_trace c) required_secrets) = [].
Proof.
  intros Hc Hchecks. split; [|reflexivity].
  destruct (secrets_config_values w) as [db [admin [jwt [w2 [Hc2 _]]]]].
  rewrite Hc2 in Hc. injection Hc as <- <-.
  unfold create_secrets, bind. rewrite Hc2.
  match goal with
  | |- context [for_each ?items _ _ _] =>
      rewrite (for_each_existing c items [] w2 w1 Hchecks)
  end.
  reflexivity.
Qed.

(** X8. In [secrets_config] the database password, the administrator's
    password and the JWT secret are generated, with 32, 24 and 64 characters
    of the alphabet, and the e-mail password and the WhatsApp token are the
    fixed placeholder, which no generated value can equal. *)
Theorem secrets_config_policy (w : W) :
  exists db admin jwt w1,
    secrets_config w =
      (Ret [ ("qitlalli-db-password", db); ("qitlalli-admin-password", admin);
             ("qitlalli-jwt-secret", jwt);
             ("qitlalli-email-password", "PLACEHOLDER-UPDATE-MANUALLY");
             ("qitlalli-whatsapp-token", "PLACEHOLDER-UPDATE-MANUALLY") ],
       w1, []) /\
    map String.length [db; admin; jwt] = [32; 24; 64]%nat /\
    Forall (fun pw => Forall (fun ch => allowed ch = true) (list_ascii_of_string pw)
                      /\ pw <> "PLACEHOLDER-UPDATE-MANUALLY")
           [db; admin; jwt].
Proof.
  unfold secrets_config, bind.
  destruct (generate_password_member 32 w) as [db [w1 [H1 [L1 A1]]]].
  destruct (generate_password_member 24 w1) as [admin [w2 [H2 [L2 A2]]]].
  destruct (generate_password_member 64 w2) as [jwt [w3 [H3 [L3 A3]]]].
  rewrite H1, H2, H3. simpl. exists db, admin, jwt, w3.
  split; [reflexivity|]. split; [simpl; rewrite L1, L2, L3; reflexivity|].
  repeat constructor; try assumption; intros ->; discriminate.
Qed.

(** ** More on [main] *)

Lemma run_accepted (argv : list cli_arg) (args : Args) (w : W) :
  parse_args argv = Ret args ->
  run argv w = (let '(o, w1, t) := orchestrate args w in (exit_status o, w1, t)).
Proof.
  intros Hparse. unfold run, main, bind at 1. rewrite Hparse.
  destruct (orchestrate args w) as [[o w1] t]. reflexivity.
Qed.

Lemma run_rejected (argv : list cli_arg) (code : Z) (w : W) :
  parse_args argv = Exit code -> run argv w = (code, w, []).
Proof.
  intros Hparse. unfold run, main, bind at 1. rewrite Hparse. reflexivity.
Qed.

Lemma parse_args_cases (argv : list cli_arg) :
  (exists args, parse_args argv = Ret args) \/ parse_args argv = Exit 2.
Proof.
  unfold parse_args. rewrite consume_args_spec.
  destruct (forallb valid_action (supplied_actions argv)); [|now right].
  simpl. destruct (last _ None); eauto.
Qed.

(** [main] after a successful authentication check: the action is
    dispatched, and an exception it raises becomes an exit with status 1. *)
Lemma orchestrate_authenticated (args : Args) (w w1 w2 : W) (t1 t2 : trace) :
  init w = (Ret tt, w1, t1) ->
  check_authentication w1 = (Ret true, w2, t2) ->
  orchestrate args w =
    (let '(o, w3, t3) :=
       dispatch (args_action args)
                (new_config (args_project_id args) (args_region args)) w2 in
     let started :=
       ELog INFO ("🚀 Starting QiTlalli " +++ args_action args
                  +++ " for project: " +++ args_project_id args) in
     match o with
     | Ret _ => (Ret tt, w3, t1 ++ t2 ++ started :: t3)
     | Raise e =>
         (Exit 1, w3,
          t1 ++ t2 ++ started :: t3
          ++ [ELog ERROR ("❌ Deployment failed: " +++ exn_msg e)])
     | Exit code => (Exit code, w3, t1 ++ t2 ++ started :: t3)
     end).
Proof.
  intros Hinit Hauth.
  unfold orchestrate, bind at 1. rewrite Hinit.
  unfold bind at 1. rewrite Hauth.
  unfold bind, try_except, log, ret, sys_exit. simpl.
  destruct (dispatch _ _ w2) as [[[[]|e|code] w3] t3]; simpl;
    rewrite ?app_nil_r; reflexivity.
Qed.

Lemma dispatch_secrets (c : GCPConfig) (w w1 : W) (created : dict) (t : trace) :
  create_secrets c w = (Ret created, w1, t) ->
  dispatch "secrets" c w =
    (Ret tt, w1,
     t ++ [ELog INFO ("✅ Managed " +++ str_nat (List.length created) +++ " secrets")]).
Proof.
  intros Hc. unfold dispatch. simpl. unfold bind, log. rewrite Hc. reflexivity.
Qed.


Lemma build_calls_app (t1 t2 : trace) :
  build_calls (t1 ++ t2) = build_calls t1 ++ build_calls t2.
Proof.
  induction t1 as [|ev t1 IH]; simpl; [reflexivity|].
  destruct ev; simpl; rewrite ?IH; reflexivity.
Qed.

Lemma http_requests_app (t1 t2 : trace) :
  http_requests (t1 ++ t2) = http_requests t1 ++ http_requests t2.
Proof.
  induction t1 as [|ev t1 IH]; simpl; [reflexivity|].
  destruct ev; simpl; rewrite ?IH; reflexivity.
Qed.

Lemma reports_no_build_or_request
    (c : GCPConfig) (rs : list (string * string * provisioning)) :
  build_calls (flat_map (provision_trace c) rs) = [] /\
  http_requests (flat_map (provision_trace c) rs) = [].
Proof.
  induction rs as [|[[name value] p] rs [IH1 IH2]]; [split; reflexivity|].
  cbn [flat_map]. rewrite build_calls_app, http_requests_app, IH1, IH2.
  destruct p; split; reflexivity.
Qed.

(** X9. For the action [secrets], once the manager is constructed and
    authenticated the process exits with status 0, whatever the secret
    store answers: failures to create secrets are logged and do not change
    the status.  The run ends with a record of the number of secrets in the
    mapping [create_secrets] returned, and submits no build and sends no
    HTTP request. *)
Theorem secrets_action_exits_0
    (argv : list cli_arg) (args : Args) (w w1 w2 : W) (t1 t2 : trace) :
  parse_args argv = Ret args ->
  args_action args = "secrets" ->
  init w = (Ret tt, w1, t1) ->
  check_authentication w1 = (Ret true, w2, t2) ->
  exists created w3 t3,
    create_secrets (new_config (args_project_id args) (args_region args)) w2
    = (Ret created, w3, t3) /\
    run argv w =
      (0%Z, w3,
       t1 ++ t2
       ++ [ELog INFO ("🚀 Starting QiTlalli secrets for project: "
                      +++ args_project_id args)]
       ++ t3
       ++ [ELog INFO ("✅ Managed " +++ str_nat (List.length created)
                      +++ " secrets")]) /\
    build_calls t3 = [] /\ http_requests t3 = [].
Proof.
  intros Hparse Haction Hinit Hauth.
  destruct (create_secrets_reports
              (new_config (args_project_id args) (args_region args)) w2)
    as [config [ps [created [w0 [w3 [_ [_ [Hrun _]]]]]]]].
  eexists created, w3, _. split; [exact Hrun|]. split.
  - rewrite (run_accepted argv args w Hparse).
    rewrite (orchestrate_authenticated args w w1 w2 t1 t2 Hinit Hauth).
    rewrite Haction, (dispatch_secrets _ _ _ _ _ Hrun). reflexivity.
  - apply reports_no_build_or_request.
Qed.


Lemma dispatch_deploy_built (c : GCPConfig) (w w1 w2 : W) (t1 t2 : trace) (b : bool) :
  build_and_deploy c w = (Ret true, w1, t1) ->
  run_health_check (service_url_of c) w1 = (Ret b, w2, t2) ->
  dispatch "deploy" c w =
    (Ret tt, w2,
     ELog INFO "🚀 Starting deployment..." :: t1
     ++ ELog INFO ("🌐 Service URL: " +++ service_url_of c) :: t2
     ++ [if b then ELog INFO "🎉 Deployment completed successfully!"
         else ELog WARNING "⚠️ Deployment completed but health check failed"]).
Proof.
  intros Hbuild Hhealth. unfold dispatch. simpl.
  unfold bind, log, ret, raise, get_service_url, try_except. simpl.
  rewrite Hbuild. simpl. rewrite Hhealth.
  destruct b; simpl; rewrite <- ?app_assoc; reflexivity.
Qed.


(** X11. For the action [deploy], once the build is submitted the process
    exits with status 0 whatever the health check finds.  The service URL is
    always there ([get_service_url] never returns [None]), so the health
    check is always made: one request, to
    [https://<service>-<project>.run.app/web/health], after a wait of 30
    seconds.  The last record is the success of the deployment when the
    check passed and a warning when it did not. *)
Theorem deploy_after_build_exits_0
    (argv : list cli_arg) (args : Args) (w w1 w2 w3 : W) (t1 t2 t3 : trace) :
  let config := new_config (args_project_id args) (args_region args) in
  parse_args argv = Ret args ->
  args_action args = "deploy" ->
  init w = (Ret tt, w1, t1) ->
  check_authentication w1 = (Ret true, w2, t2) ->
  build_and_deploy config w2 = (Ret true, w3, t3) ->
  exists b w4 l msg,
    let url := "https://qitlalli-odoo-" +++ args_project_id args +++ ".run.app" in
    let t4 := [ ELog INFO "⏳ Waiting for service to be ready..."; ESleep 30;
                EHttpGet (url +++ "/web/health") 30; ELog l msg ] in
    run_health_check url w3 = (Ret b, w4, t4) /\
    run argv w =
      (0%Z, w4,
       t1 ++ t2
       ++ [ELog INFO ("🚀 Starting QiTlalli deploy for project: "
                      +++ args_project_id args);
           ELog INFO "🚀 Starting deployment..."]
       ++ t3
       ++ [ELog INFO ("🌐 Service URL: " +++ url)]
       ++ t4
       ++ [if b then ELog INFO "🎉 Deployment completed successfully!"
           else ELog WARNING "⚠️ Deployment completed but health check failed"]).
Proof.
  intros config Hparse Haction Hinit Hauth Hbuild.
  destruct (run_health_check_total (service_url_of config) w3)
    as [b [w4 [msg [l Hhealth]]]].
  exists b, w4, l, msg. split; [exact Hhealth|].
  rewrite (run_accepted argv args w Hparse).
  rewrite (orchestrate_authenticated args w w1 w2 t1 t2 Hinit Hauth).
  rewrite Haction. fold config.
  rewrite (dispatch_deploy_built config w2 w3 w4 _ _ b Hbuild Hhealth).
  simpl. repeat rewrite <- app_assoc. reflexivity.
Qed.

Lemma init_not_exit (w w1 : W) (code : Z) (t : trace) :
  init w <> (Exit code, w1, t).
Proof.
  unfold init, bind, call.
  repeat match goal with
         | |- context [match ?f ?x with _ => _ end] =>
             match type of (f x) with
             | (reply _ * _)%type => destruct (f x) as [[[]|?] ?]
             end
         end;
    discriminate.
Qed.

Lemma orchestrate_not_constructed (args : Args) (w w1 : W) (e : exn) (t1 : trace) :
  init w = (Raise e, w1, t1) ->
  orchestrate args w = (Raise e, w1, t1).
Proof.
  intros Hinit. unfold orchestrate, bind at 1. rewrite Hinit. reflexivity.
Qed.

Lemma orchestrate_not_authenticated (args : Args) (w w1 w2 : W) (t1 t2 : trace) :
  init w = (Ret tt, w1, t1) ->
  check_authentication w1 = (Ret false, w2, t2) ->
  orchestrate args w = (Exit 1, w2, t1 ++ t2).
Proof.
  intros Hinit Hauth. unfold orchestrate, bind. rewrite Hinit, Hauth. simpl.
  now rewrite app_nil_r.
Qed.



Lemma constructor_not_step (t : trace) :
  forallb constructor_event t = true ->
  forallb (fun ev => negb (step_event ev)) t = true.
Proof.
  induction t as [|ev t IH]; simpl; [reflexivity|].
  intros H. apply andb_prop in H as [Hev Ht]. rewrite IH by assumption.
  destruct ev; simpl in *; try discriminate; reflexivity.
Qed.

Lemma step_after_prefix (p : trace) :
  forall (r t1 t2 : trace) (ev : event),
  p ++ r = t1 ++ ev :: t2 ->
  forallb (fun ev => negb (step_event ev)) p = true ->
  step_event ev = true ->
  exists t, t1 = p ++ t.
Proof.
  induction p as [|a p IH]; intros r t1 t2 ev Heq Hp Hev.
  - exists t1. reflexivity.
  - simpl in Hp. apply andb_prop in Hp as [Ha Hp].
    destruct t1 as [|b t1]; simpl in Heq; injection Heq as <- Heq.
    + rewrite Hev in Ha. discriminate.
    + destruct (IH r t1 t2 ev Heq Hp Hev) as [t ->]. now exists t.
Qed.

(** The events of a run: none of them a step, or those of the constructor,
    then those of a successful authentication check, then the rest. *)
Lemma run_trace_cases (argv : list cli_arg) (w : W) :
  forallb (fun ev => negb (step_event ev)) (snd (run argv w)) = true \/
  exists pre rest,
    snd (run argv w) =
      (pre ++ [EListProjects; ELog INFO "✅ GCP authentication verified"]) ++ rest /\
    forallb constructor_event pre = true.
Proof.
  destruct (parse_args_cases argv) as [[args Hparse]|Hparse].
  2:{ rewrite (run_rejected argv 2 w Hparse). now left. }
  rewrite (run_accepted argv args w Hparse).
  destruct (init w) as [[[[]|e|code] w1] t1] eqn:Hinit.
  3:{ exfalso. exact (init_not_exit _ _ _ _ Hinit). }
  2:{ rewrite (orchestrate_not_constructed args w w1 e t1 Hinit). left.
      exact (constructor_not_step _ (init_events _ _ _ _ Hinit)). }
  pose proof (init_events _ _ _ _ Hinit) as Hctor.
  destruct (check_authentication_total w1) as [[|] [w2 [t2 Hauth]]].
  - rewrite (orchestrate_authenticated args w w1 w2 t1 t2 Hinit Hauth).
    rewrite (check_authentication_true _ _ _ Hauth).
    right. exists t1.
    destruct (dispatch _ _ w2) as [[[[]|e|code] w3] t3]; simpl;
      eexists; (split; [rewrite <- app_assoc; reflexivity | exact Hctor]).
  - rewrite (orchestrate_not_authenticated args w w1 w2 t1 t2 Hinit Hauth).
    destruct (check_authentication_false _ _ _ Hauth) as [msg ->].
    left. simpl. rewrite forallb_app, (constructor_not_step _ Hctor). reflexivity.
Qed.

(** X13. In every run, whatever the command line and the environment, a
    call to the secret store, to the build service or to the deployed
    service, and the wait before the health check, come after a successful
    authentication check, which itself comes after the constructor's calls
    only. *)
Theorem every_step_follows_authentication
    (argv : list cli_arg) (w : W) (t1 t2 : trace) (ev : event) :
  snd (run argv w) = t1 ++ ev :: t2 ->
  step_event ev = true ->
  exists pre rest,
    t1 = pre ++ [EListProjects; ELog INFO "✅ GCP authentication verified"] ++ rest /\
    forallb constructor_event pre = true.
Proof.
  intros Hsplit Hev.
  destruct (run_trace_cases argv w) as [Hnone|[pre [rest [Ht Hpre]]]].
  - rewrite Hsplit, forallb_app in Hnone. simpl in Hnone.
    rewrite Hev in Hnone. simpl in Hnone.
    apply andb_prop in Hnone as [_ Hnone]. discriminate.
  - rewrite Ht in Hsplit.
    destruct (step_after_prefix _ rest t1 t2 ev Hsplit) as [t ->].
    + rewrite forallb_app, (constructor_not_step _ Hpre). reflexivity.
    + exact Hev.
    + exists pre, t. split; [now rewrite <- app_assoc | exact Hpre].
Qed.

End Methods.

(** The hypotheses of X7 hold of the project once provisioned: a second
    run of [create_secrets] finds the five secrets. *)
Lemma create_secrets_creates_nothing_when_all_exist_witness :
  exists p1 : Project,
    create_secrets demo_config provisioned_project =
      (Ret [], p1, flat_map (existing_trace demo_config) required_secrets) /\
    filter mutation_event (flat_map (existing_trace demo_config) required_secrets) = [].
Proof.
  eexists.
  eapply create_secrets_creates_nothing_when_all_exist; vm_compute; reflexivity.
Defined.

(** The hypotheses of X9 hold of a caller who may not create secrets: the
    five creations fail and the status is 0. *)
Lemma secrets_action_exits_0_witness :
  exists created p3 t3,
    create_secrets (new_config "demo" "us-central1") locked_project
    = (Ret created, p3, t3) /\
    run [ArgProjectId "demo"; ArgAction "secrets"] locked_project =
      (0%Z, p3,
       constructor_trace
       ++ [EListProjects; ELog INFO "✅ GCP authentication verified"]
       ++ [ELog INFO "🚀 Starting QiTlalli secrets for project: demo"]
       ++ t3
       ++ [ELog INFO ("✅ Managed " +++ str_nat (List.length created)
                      +++ " secrets")]) /\
    build_calls t3 = [] /\ http_requests t3 = [].
Proof.
  apply (secrets_action_exits_0
           [ArgProjectId "demo"; ArgAction "secrets"]
           (mkArgs "demo" "us-central1" "secrets")
           locked_project locked_project locked_project);
    reflexivity.
Defined.


(** The hypotheses of X11 hold of an empty project with a healthy
    service. *)
Lemma deploy_after_build_exits_0_witness :
  let built := snd (sim_create_build "projects/demo" (build_config demo_config)
                      fresh_project) in
  exists b p4 l msg,
    let url := "https://qitlalli-odoo-" +++ "demo" +++ ".run.app" in
    let t4 := [ ELog INFO "⏳ Waiting for service to be ready..."; ESleep 30;
                EHttpGet (url +++ "/web/health") 30; ELog l msg ] in
    run_health_check url built = (Ret b, p4, t4) /\
    run [ArgProjectId "demo"] fresh_project =
      (0%Z, p4,
       constructor_trace
       ++ [EListProjects; ELog INFO "✅ GCP authentication verified"]
       ++ [ELog INFO "🚀 Starting QiTlalli deploy for project: demo";
           ELog INFO "🚀 Starting deployment..."]
       ++ [ELog INFO "🐳 Starting Docker build...";
           ECreateBuild "projects/demo" (build_config demo_config);
           ELog INFO "✅ Docker build submitted successfully"]
       ++ [ELog INFO ("🌐 Service URL: " +++ url)]
       ++ t4
       ++ [if b then ELog INFO "🎉 Deployment completed successfully!"
           else ELog WARNING "⚠️ Deployment completed but health check failed"]).
Proof.
  intros built.
  apply (deploy_after_build_exits_0
           [ArgProjectId "demo"] (mkArgs "demo" "us-central1" "deploy")
           fresh_project fresh_project fresh_project built);
    reflexivity.
Defined.

(** The hypotheses of X13 hold of the submission of the build in a
    deployment: the eleven events before it begin with the constructor's and
    the authentication check's. *)
Lemma every_step_follows_authentication_witness :
  let t := snd (run [ArgProjectId "demo"] fresh_project) in
  exists pre rest,
    firstn 11 t =
      pre ++ [EListProjects; ELog INFO "✅ GCP authentication verified"] ++ rest /\
    forallb constructor_event pre = true.
Proof.
  intros t.
  apply (every_step_follows_authentication
           [ArgProjectId "demo"] fresh_project
           (firstn 11 t) (skipn 12 t)
           (ECreateBuild "projects/demo" (build_config demo_config)));
    reflexivity.
Defined.
